(** * MIMIC-CXR preparation pipeline: a shallow embedding of
    [datathon_etl_pipelines/mimic_cxr/prepare_mimic_cxr.py].

    Python values are modelled as follows.
    - [str] is [string]; [bytes] is [list Byte.byte].
    - a raised exception is the [Raise] branch of [result]; every function
      that can raise returns a [result] and callers thread it with [x ← c; k].
    - the key tuple [ids] of five integers is the record [Ids].
    - a [dict] with string keys is a [gmap string _].
    - a PCollection is a [list]; a transform is a function on lists in which
      the first element that raises fails the whole transform. *)

From Stdlib Require Import Ascii String NArith DecimalString DecimalN DecimalFacts.
From stdpp Require Import gmap strings list fin_maps.

Open Scope string_scope.
Open Scope N_scope.

(** ** Exceptions and the error monad *)

Inductive exn : Type :=
| ValueError (msg : string)
| StopIteration
| IndexError (msg : string)
| KeyError (key : string)
| CsvError (msg : string)
| MalformedPathError (path : string)
| RecordBuildError (msg : string).

Inductive result (A : Type) : Type :=
| Ok (a : A)
| Raise (e : exn).
Arguments Ok {A} a.
Arguments Raise {A} e.

Global Instance result_bind : MBind result := λ A B k c,
  match c with
  | Ok a => k a
  | Raise e => Raise e
  end.

Global Instance result_fmap : FMap result := λ A B f c,
  match c with
  | Ok a => Ok (f a)
  | Raise e => Raise e
  end.

Definition is_ok {A} (r : result A) : bool :=
  match r with Ok _ => true | Raise _ => false end.

(** [[f(x) for x in l]], and [beam.Map(f)] over a collection: the first
    element on which [f] raises decides the outcome. *)
Fixpoint mapM {A B} (f : A → result B) (l : list A) : result (list B) :=
  match l with
  | [] => Ok []
  | x :: l' => y ← f x; ys ← mapM f l'; Ok (y :: ys)
  end.

(** ** Decimal rendering and reading of integers ([str.format], [int]) *)

Definition str_of_N (n : N) : string := NilEmpty.string_of_uint (N.to_uint n).

Definition is_digit (c : ascii) : bool :=
  let n := N_of_ascii c in (48 <=? n) && (n <=? 57).

Fixpoint span_digits (s : string) : string * string :=
  match s with
  | String c s' =>
      if is_digit c then let '(d, r) := span_digits s' in (String c d, r)
      else (EmptyString, s)
  | EmptyString => (EmptyString, EmptyString)
  end.

(** The longest non-empty run of decimal digits at the head of [s], read as
    an integer, with the rest of [s]. *)
Definition parse_int (s : string) : option (N * string) :=
  match span_digits s with
  | (EmptyString, _) => None
  | (d, r) => (λ u, (N.of_uint u, r)) <$> NilEmpty.uint_of_string d
  end.

Fixpoint strip_prefix (p s : string) : option string :=
  match p, s with
  | EmptyString, _ => Some s
  | String a p', String b s' =>
      if Ascii.eqb a b then strip_prefix p' s' else None
  | String _ _, EmptyString => None
  end.

(** ** [enum_encodings] *)

Module enum_encodings.

(** The key tuple [(dataset, patient, study, image, view)]; the two
    enumerated fields hold their integer codes. *)
Record Ids : Type := mk_ids {
  dataset : N; patient : N; study : N; image : N; view : N }.

Global Instance Ids_eq_dec : EqDecision Ids.
Proof. solve_decision. Defined.

Definition ids_tuple (k : Ids) : list N :=
  [dataset k; patient k; study k; image k; view k].

(** Modelled from the spec: [enum_encodings.py] is absent from the sources.
    [ID_NAMES] maps each key field name to its position in the tuple, in
    tuple order; the only name the pipeline itself spells is 'view'. *)
Definition ID_NAMES : list (string * nat) :=
  [("dataset", 0%nat); ("patient", 1%nat); ("study", 2%nat);
   ("image", 3%nat); ("view", 4%nat)].

(** Modelled from the spec: the view enumeration, with the codes that the
    pipeline's unpacking [frontal, lateral, _ = ...] fixes. *)
Definition VIEW_VALUES : list (string * N) :=
  [("frontal", 0); ("lateral", 1); ("other", 2)].

(** Modelled from the spec: the split enumeration, restricted to the two
    directory names of the path grammar in the module docstring. *)
Definition DATASET_VALUES : list (string * N) :=
  [("train", 0); ("valid", 1)].

(** Modelled from the spec: the label enumeration [LABEL_VALUES]; the
    constructor [positive] stands for the code [LABEL_VALUES['positive']],
    and so on. *)
Inductive LabelCode : Type := not_mentioned | positive | uncertain | negative.

Global Instance LabelCode_eq_dec : EqDecision LabelCode.
Proof. solve_decision. Defined.

(** Modelled from the spec: the fourteen finding categories, named as the
    label columns of the CSV are in the module docstring. *)
Definition LABEL_NAMES : list string :=
  ["No Finding"; "Enlarged Cardiomediastinum"; "Cardiomegaly";
   "Airspace Opacity"; "Lung Lesion"; "Edema"; "Consolidation";
   "Pneumonia"; "Atelectasis"; "Pneumothorax"; "Pleural Effusion";
   "Pleural Other"; "Fracture"; "Support Devices"].

(** [d[name]] on an insertion-ordered dict. *)
Fixpoint dict_get {V} (d : list (string * V)) (name : string) : option V :=
  match d with
  | [] => None
  | (n, v) :: d' => if String.eqb n name then Some v else dict_get d' name
  end.

(** The name whose code is [v]. *)
Fixpoint name_of (d : list (string * N)) (v : N) : option string :=
  match d with
  | [] => None
  | (n, w) :: d' => if N.eqb w v then Some n else name_of d' v
  end.

(** The first name of the table that heads [s], with its code and the rest. *)
Fixpoint match_enum (d : list (string * N)) (s : string)
  : option (N * string) :=
  match d with
  | [] => None
  | (n, v) :: d' =>
      match strip_prefix n s with
      | Some r => Some (v, r)
      | None => match_enum d' s
      end
  end.

Definition opt_or_raise {A} (e : exn) (o : option A) : result A :=
  match o with Some a => Ok a | None => Raise e end.

(** Modelled from the spec: [path_to_ids] reads a path of the grammar
    [(train|valid)/p[0-9]+/s[0-9]+/view[0-9]+_(frontal|lateral|other).jpg]
    from left to right and fails on any segment outside its lexical
    class. *)
Definition path_to_ids (path : string) : result Ids :=
  opt_or_raise (MalformedPathError path)
    ('(ds, r) ← match_enum DATASET_VALUES path;
     r ← strip_prefix "/p" r;
     '(pa, r) ← parse_int r;
     r ← strip_prefix "/s" r;
     '(st, r) ← parse_int r;
     r ← strip_prefix "/view" r;
     '(im, r) ← parse_int r;
     r ← strip_prefix "_" r;
     '(vw, r) ← match_enum VIEW_VALUES r;
     if String.eqb r ".jpg" then Some (mk_ids ds pa st im vw) else None).

(** Modelled from the spec: [ids_to_path] renders the canonical path of a
    key, and fails on a code outside an enumeration. *)
Definition ids_to_path (k : Ids) : result string :=
  ds ← opt_or_raise (KeyError (str_of_N (dataset k)))
         (name_of DATASET_VALUES (dataset k));
  vw ← opt_or_raise (KeyError (str_of_N (view k)))
         (name_of VIEW_VALUES (view k));
  Ok (ds ++ "/p" ++ str_of_N (patient k) ++ "/s" ++ str_of_N (study k)
         ++ "/view" ++ str_of_N (image k) ++ "_" ++ vw ++ ".jpg").

(** A key is well formed when its enumerated fields hold declared codes. *)
Definition well_formed (k : Ids) : Prop :=
  dataset k < N.of_nat (length DATASET_VALUES) ∧
  view k < N.of_nat (length VIEW_VALUES).

End enum_encodings.
Import enum_encodings.

Definition bytes : Type := list Byte.byte.

(** ** [csv.reader] on a one-line input

    The reader of CPython's [_csv] module with the default dialect: delimiter
    a comma, quote character the double quote (doubled inside quotes), minimal quoting, not strict,
    no escape character, no skipping of initial spaces. *)

Module csv.

Inductive ParserState : Type :=
| START_RECORD | START_FIELD | IN_FIELD | IN_QUOTED_FIELD
| QUOTE_IN_QUOTED_FIELD | EAT_CRNL.

Record Reader : Type := mk_reader {
  fields : list string;   (* the fields saved so far, in order *)
  field : string;         (* the field being read *)
  state : ParserState }.

(** A character of the line, or the end-of-line mark the reader feeds itself
    after the last character. *)
Inductive input : Type := Char (c : ascii) | EOL.

Definition field_limit : N := 131072.

Definition delimiter : ascii := ",".
Definition quotechar : ascii := ascii_of_nat 34.
Definition LF : ascii := ascii_of_nat 10.
Definition CR : ascii := ascii_of_nat 13.
Definition NUL : ascii := ascii_of_nat 0.

Definition is_newline (c : ascii) : bool := Ascii.eqb c LF || Ascii.eqb c CR.

Definition parse_reset : Reader := mk_reader [] EmptyString START_RECORD.

Definition parse_save_field (r : Reader) : Reader :=
  mk_reader (fields r ++ [field r]) EmptyString (state r).

Definition parse_add_char (r : Reader) (c : ascii) : result Reader :=
  if field_limit <=? N.of_nat (String.length (field r))
  then Raise (CsvError "field larger than field limit (131072)")
  else Ok (mk_reader (fields r) (field r ++ String c EmptyString) (state r)).

Definition set_state (st : ParserState) (r : Reader) : Reader :=
  mk_reader (fields r) (field r) st.

Definition start_field (r : Reader) (i : input) : result Reader :=
  match i with
  | EOL => Ok (set_state START_RECORD (parse_save_field r))
  | Char c =>
      if is_newline c then Ok (set_state EAT_CRNL (parse_save_field r))
      else if Ascii.eqb c quotechar then Ok (set_state IN_QUOTED_FIELD r)
      else if Ascii.eqb c delimiter then Ok (parse_save_field r)
      else set_state IN_FIELD <$> parse_add_char r c
  end.

Definition parse_process_char (r : Reader) (i : input) : result Reader :=
  match state r with
  | START_RECORD =>
      match i with
      | EOL => Ok r
      | Char c =>
          if is_newline c then Ok (set_state EAT_CRNL r)
          else start_field (set_state START_FIELD r) i
      end
  | START_FIELD => start_field r i
  | IN_FIELD =>
      match i with
      | EOL => Ok (set_state START_RECORD (parse_save_field r))
      | Char c =>
          if is_newline c then Ok (set_state EAT_CRNL (parse_save_field r))
          else if Ascii.eqb c delimiter
               then Ok (set_state START_FIELD (parse_save_field r))
          else parse_add_char r c
      end
  | IN_QUOTED_FIELD =>
      match i with
      | EOL => Ok r
      | Char c =>
          if Ascii.eqb c quotechar then Ok (set_state QUOTE_IN_QUOTED_FIELD r)
          else parse_add_char r c
      end
  | QUOTE_IN_QUOTED_FIELD =>
      match i with
      | EOL => Ok (set_state START_RECORD (parse_save_field r))
      | Char c =>
          if Ascii.eqb c quotechar
          then set_state IN_QUOTED_FIELD <$> parse_add_char r c
          else if Ascii.eqb c delimiter
               then Ok (set_state START_FIELD (parse_save_field r))
          else if is_newline c
               then Ok (set_state EAT_CRNL (parse_save_field r))
          else set_state IN_FIELD <$> parse_add_char r c
      end
  | EAT_CRNL =>
      match i with
      | EOL => Ok (set_state START_RECORD r)
      | Char c =>
          if is_newline c then Ok r
          else Raise (CsvError "new-line character seen in unquoted field")
      end
  end.

Fixpoint process_line (r : Reader) (line : string) : result Reader :=
  match line with
  | EmptyString => parse_process_char r EOL
  | String c line' =>
      if Ascii.eqb c NUL then Raise (CsvError "line contains NULL byte")
      else r' ← parse_process_char r (Char c); process_line r' line'
  end.

(** [next(csv.reader([line]))]: the line is read, and when the record is
    still open at its end (an unclosed quote) the input is exhausted and
    the pending field is saved. *)
Definition next_reader (line : string) : result (list string) :=
  r ← process_line parse_reset line;
  match state r with
  | START_RECORD => Ok (fields r)
  | IN_QUOTED_FIELD => Ok (fields (parse_save_field r))
  | _ =>
      if String.eqb (field r) EmptyString then Raise StopIteration
      else Ok (fields (parse_save_field r))
  end.

End csv.

(** ** [ChexpertConverter] *)

Module ChexpertConverter.

Definition chexpert_code_to_index : gmap string LabelCode :=
  <["0.0" := negative]> (<["-1.0" := uncertain]> (<["1.0" := positive]>
    (<[EmptyString := not_mentioned]> ∅))).

Definition convert (s : string) : result LabelCode :=
  match chexpert_code_to_index !! s with
  | None => Raise (ValueError ("unrecognized chexpert encoding: " ++ s))
  | Some int_code => Ok int_code
  end.

End ChexpertConverter.

(** ** The per-record functions *)

Definition parse_csv_row (line : string) : result (Ids * list LabelCode) :=
  row ← csv.next_reader line;
  row0 ← opt_or_raise (IndexError "list index out of range") (row !! 0%nat);
  ids ← path_to_ids row0;
  labels ← mapM ChexpertConverter.convert (drop 2 row);
  Ok (ids, labels).

(** A value of a BigQuery row: an integer key field, a label code, or the
    path string. *)
Inductive bq_value : Type :=
| BqInt (n : N)
| BqLabel (c : LabelCode)
| BqStr (s : string).

Global Instance bq_value_eq_dec : EqDecision bq_value.
Proof. solve_decision. Defined.

(** [{k: v for k, v in pairs}] and [dict(pairs)]: a later pair with the same
    key replaces an earlier one. *)
Definition dict_of_pairs {V} (pairs : list (string * V)) : gmap string V :=
  foldl (λ m kv, <[kv.1 := kv.2]> m) ∅ pairs.

(** [d.update(e)]: the entries of [e] replace those of [d]. *)
Definition dict_update {V} (d e : gmap string V) : gmap string V := e ∪ d.

Definition to_bigquery_json (ids_row : Ids * list LabelCode)
  : result (gmap string bq_value) :=
  let '(ids, row) := ids_row in
  let bq := dict_of_pairs (zip LABEL_NAMES (BqLabel <$> row)) in
  let bq := dict_update bq
              (dict_of_pairs (zip ID_NAMES.*1 (BqInt <$> ids_tuple ids))) in
  path ← ids_to_path ids;
  Ok (<["path" := BqStr path]> bq).

(** [write_jpg] returns the file it writes: its full path and its contents. *)
Definition write_jpg (element : Ids * bytes) (path : string)
  : result (string * bytes) :=
  let '(ids, jpg_bytes) := element in
  rel ← ids_to_path ids;
  Ok (path ++ rel, jpg_bytes).

(** A feature of a training record. *)
Inductive feature : Type :=
| BytesFeature (b : bytes)
| Int64Feature (n : N)
| LabelFeature (c : LabelCode).

(** [tf.train.Example]: the named features, in the order they are built. *)
Record Example : Type := mk_example { features : list (string * feature) }.

(** Modelled from the spec: [mimic_cxr_tfrecord_schema.build_features] is
    absent from the sources. It embeds the image bytes, each key field and
    each label under its feature name, and fails with a [RecordBuildError] on
    an empty image buffer or on a label vector whose length is not the
    category count. *)
Definition build_features (jpg_bytes : bytes) (ids : Ids)
    (labels : list LabelCode) : result (list (string * feature)) :=
  if decide (jpg_bytes = []) then Raise (RecordBuildError "empty image")
  else if decide (length labels ≠ length LABEL_NAMES)
       then Raise (RecordBuildError "label vector length")
  else Ok (("jpg_bytes", BytesFeature jpg_bytes)
             :: zip ID_NAMES.*1 (Int64Feature <$> ids_tuple ids)
             ++ zip LABEL_NAMES (LabelFeature <$> labels)).

(** The value of a CoGroupByKey group: the image buffers and the label rows
    that share the key. *)
Record Join : Type := mk_join {
  jpgs : list bytes;
  rows : list (list LabelCode) }.

Definition str_of_len {A} (l : list A) : string := str_of_N (N.of_nat (length l)).

Definition to_tf_example (element : Ids * Join) : result Example :=
  let '(ids, join) := element in
  if negb (length (jpgs join) =? 1)%nat || negb (length (rows join) =? 1)%nat
  then
    path ← ids_to_path ids;
    Raise (ValueError (str_of_len (jpgs join) ++ " JPG files matched to "
                         ++ str_of_len (rows join) ++ " rows for " ++ path))
  else
    jpg ← opt_or_raise (IndexError "list index out of range")
            (jpgs join !! 0%nat);
    row ← opt_or_raise (IndexError "list index out of range")
            (rows join !! 0%nat);
    features ← build_features jpg ids row;
    Ok (mk_example features).

(** ** The pipeline *)

(** What the pipeline reads from outside: the files a pattern matches, the
    lines of a text file, the entries of a tar file (name and contents), and
    the image resizer. *)
Record Env : Type := mk_env {
  glob : string → list string;
  read_lines : string → list string;
  read_tar : string → list (string * bytes);
  resize_image : list N → bytes → result bytes }.

(** What a completed run has written: the rows of the BigQuery table, the JPG
    files, and for each TFRecord file prefix its records. *)
Record Outputs : Type := mk_outputs {
  bq_rows : option (string * list (gmap string bq_value));
  jpg_files : list (string * bytes);
  tfrecords : list (string * list Example) }.

(** Modelled from the spec: [dofns.read_tar_file.ReadTarFile] is absent from
    the sources. It yields every entry of the archive as its contents keyed
    by the key that the given codec reads from the entry's name. *)
Definition ReadTarFile (env : Env) (path_to_key : string → result Ids)
    (tar : string) : result (list (Ids * bytes)) :=
  mapM (λ entry, ids ← path_to_key entry.1; Ok (ids, entry.2))
       (read_tar env tar).

(** Modelled from the spec: [dofns.resize_image.ResizeImage] is absent from
    the sources. It replaces the image bytes of an element by the resized
    ones and keeps its key. *)
Definition ResizeImage (env : Env) (shape : list N) (element : Ids * bytes)
  : result (Ids * bytes) :=
  b ← resize_image env shape element.2; Ok (element.1, b).

(** [beam.ParDo(f)]: the outputs of [f] on every element, in order. *)
Definition ParDo {A B} (f : A → result (list B)) (l : list A)
  : result (list B) :=
  @concat B <$> mapM f l.

(** [{'jpgs': jpgs, 'rows': rows} | beam.CoGroupByKey()]: one group for each
    key that occurs on either side, holding the values of each side. *)
Definition CoGroupByKey (js : list (Ids * bytes))
    (rs : list (Ids * list LabelCode)) : list (Ids * Join) :=
  (λ k, (k, mk_join (filter (λ e, e.1 = k) js).*2
                    (filter (λ e, e.1 = k) rs).*2))
    <$> remove_dups (js.*1 ++ rs.*1).

(** [beam.Partition(fn, n)]: every element goes to the output that [fn]
    selects; a selection outside [0, n) fails. *)
Definition Partition {A} (fn : A → nat → result N) (n : nat) (l : list A)
  : result (list (list A)) :=
  tagged ← mapM (λ x,
      i ← fn x n;
      if i <? N.of_nat n then Ok (i, x)
      else Raise (ValueError
        "PartitionFn specified out-of-bounds partition index")) l;
  Ok ((λ j, (filter (λ t, t.1 = N.of_nat j) tagged).*2) <$> seq 0 n).

(** The partition function [lambda kv, n_split: kv[0][ID_NAMES['view']]]. *)
Definition partition_on_view (kv : Ids * Join) (n_split : nat) : result N :=
  i ← opt_or_raise (KeyError "view") (dict_get ID_NAMES "view");
  opt_or_raise (IndexError "tuple index out of range") (ids_tuple kv.1 !! i).

Fixpoint endswith_slash (s : string) : bool :=
  match s with
  | EmptyString => false
  | String c EmptyString => Ascii.eqb c "/"
  | String _ s' => endswith_slash s'
  end.

Definition with_slash (dir : string) : string :=
  if endswith_slash dir then dir else dir ++ "/".

(** The body of [with beam.Pipeline(...) as p], run on the matched tar
    files. *)
Definition run_pipeline (env : Env) (input_paths : list string)
    (input_csv : string) (output_jpg_dir output_bq_table
    output_tfrecord_dir : option string) (output_image_shape : option (list N))
  : result Outputs :=
  rows ← mapM parse_csv_row (drop 1 (read_lines env input_csv));
  bq ← match output_bq_table with
       | Some table => r ← mapM to_bigquery_json rows; Ok (Some (table, r))
       | None => Ok None
       end;
  match output_jpg_dir, output_tfrecord_dir with
  | None, None => Ok (mk_outputs bq [] [])
  | _, _ =>
      jpgs ← ParDo (ReadTarFile env path_to_ids) input_paths;
      jpgs ← match output_image_shape with
             | Some shape => mapM (ResizeImage env shape) jpgs
             | None => Ok jpgs
             end;
      files ← match output_jpg_dir with
              | Some dir => mapM (λ e, write_jpg e (with_slash dir)) jpgs
              | None => Ok []
              end;
      let joined := CoGroupByKey jpgs rows in
      parts ← Partition partition_on_view (length VIEW_VALUES) joined;
      match parts with
      | [frontal; lateral; _] =>
          tf ← match output_tfrecord_dir with
               | Some dir =>
                   mapM (λ pn, exs ← mapM to_tf_example pn.1;
                               Ok (with_slash dir ++ pn.2, exs))
                        [(frontal, "frontal"); (lateral, "lateral")]
               | None => Ok []
               end;
          Ok (mk_outputs bq files tf)
      | _ => Raise (ValueError "wrong number of values to unpack")
      end
  end.

Definition build_and_run_pipeline (env : Env) (input_tars : list string)
    (input_csv : string) (output_jpg_dir output_bq_table
    output_tfrecord_dir : option string) (output_image_shape : option (list N))
  : result Outputs :=
  let input_paths := concat (glob env <$> input_tars) in
  if decide (input_paths = [])
  then Raise (ValueError "No matching tar files were found.")
  else run_pipeline env input_paths input_csv output_jpg_dir output_bq_table
         output_tfrecord_dir output_image_shape.

(** ** Predicates used in the statements *)

Definition head_not_digit (s : string) : Prop :=
  match s with
  | EmptyString => True
  | String c _ => is_digit c = false
  end.

(** The four raw encodings of a label cell. *)
Definition chexpert_encodings : list string :=
  [EmptyString; "1.0"; "-1.0"; "0.0"].

Fixpoint all_digits (s : string) : bool :=
  match s with
  | EmptyString => true
  | String c s' => is_digit c && all_digits s'
  end.

(** A decimal numeral in normal form: a single zero, or digits that do not
    start with a zero. *)
Definition canonical_number (s : string) : bool :=
  match s with
  | EmptyString => false
  | String c s' =>
      if Ascii.eqb c "0"
      then match s' with EmptyString => true | _ => false end
      else is_digit c && all_digits s'
  end.

(** The canonical paths: the grammar
    [{split}/p{patient_id}/s{study_id}/view{image_index}_{view_name}.jpg]
    with the declared split and view names and numerals in normal form. *)
Definition canonical_path (p : string) : Prop :=
  ∃ split pa st im vw : string,
    split ∈ DATASET_VALUES.*1 ∧ vw ∈ VIEW_VALUES.*1 ∧
    canonical_number pa = true ∧ canonical_number st = true ∧
    canonical_number im = true ∧
    p = split ++ "/p" ++ pa ++ "/s" ++ st ++ "/view" ++ im ++ "_" ++ vw
          ++ ".jpg".

(** The label records of a run: the parsed lines of the CSV after its
    header. *)
Definition label_rows (env : Env) (input_csv : string)
  : result (list (Ids * list LabelCode)) :=
  mapM parse_csv_row (drop 1 (read_lines env input_csv)).

(** The image records of a run: the entries of the tar files, resized when a
    shape is given. *)
Definition image_records (env : Env) (input_paths : list string)
    (output_image_shape : option (list N)) : result (list (Ids * bytes)) :=
  jpgs ← ParDo (ReadTarFile env path_to_ids) input_paths;
  match output_image_shape with
  | Some shape => mapM (ResizeImage env shape) jpgs
  | None => Ok jpgs
  end.

(** The view feature of a training record. *)
Definition example_view (ex : Example) : option feature :=
  dict_get (features ex) "view".

(** ** A small dataset

    One tar file with a frontal, a lateral and an 'other' image, and a CSV
    with a row for each of them and a row of view 'other' that has no
    image. *)

Definition demo_header : string :=
  "path,view,No Finding,Enlarged Cardiomediastinum,Cardiomegaly,Airspace Opacity,Lung Lesion,Edema,Consolidation,Pneumonia,Atelectasis,Pneumothorax,Pleural Effusion,Pleural Other,Fracture,Support Devices".

Definition demo_lines : list string :=
  [demo_header;
   "train/p1/s10/view1_frontal.jpg,frontal,,1.0,-1.0,0.0,,,,,,,,,,";
   "train/p1/s10/view2_lateral.jpg,lateral,1.0,,,,,,,,,,,,,";
   "train/p2/s11/view1_other.jpg,other,,,,,,,,,,,,,,0.0";
   "valid/p3/s12/view1_other.jpg,other,,,,,,,,,,,,,,"].

Definition demo_jpg (n : Byte.byte) : bytes := [Byte.xff; Byte.xd8; n].

Definition demo_entries : list (string * bytes) :=
  [("train/p1/s10/view1_frontal.jpg", demo_jpg Byte.x01);
   ("train/p1/s10/view2_lateral.jpg", demo_jpg Byte.x02);
   ("train/p2/s11/view1_other.jpg", demo_jpg Byte.x03)].

Definition demo_env : Env :=
  mk_env
    (λ pattern, if String.eqb pattern "/in/*.tar" then ["/in/a.tar"] else [])
    (λ file, if String.eqb file "/in/labels.csv" then demo_lines else [])
    (λ tar, if String.eqb tar "/in/a.tar" then demo_entries else [])
    (λ _ b, Ok b).

Definition demo_run : result Outputs :=
  build_and_run_pipeline demo_env ["/in/*.tar"] "/in/labels.csv"
    (Some "/out/jpg") (Some "project:dataset.labels") (Some "/out/tf/") None.

Definition demo_key : Ids := mk_ids 0 1 10 1 0.

Definition demo_labels : list LabelCode :=
  [not_mentioned; positive; uncertain; negative] ++ replicate 10 not_mentioned.

Definition demo_js : list (Ids * bytes) :=
  [(mk_ids 0 1 10 1 0, demo_jpg Byte.x01);
   (mk_ids 0 1 10 2 1, demo_jpg Byte.x02);
   (mk_ids 0 2 11 1 2, demo_jpg Byte.x03)].

Definition demo_rs : list (Ids * list LabelCode) :=
  [(mk_ids 0 1 10 1 0, demo_labels);
   (mk_ids 0 1 10 2 1, demo_labels);
   (mk_ids 0 2 11 1 2, demo_labels);
   (mk_ids 1 3 12 1 2, demo_labels)].

(** The same dataset with an empty line at the end of the CSV. *)
Definition demo_env_blank : Env :=
  mk_env (glob demo_env)
    (λ file, (read_lines demo_env file ++ [EmptyString])%list)
    (read_tar demo_env) (resize_image demo_env).

(** ** Lines of plain fields *)

(** A character that the CSV reader copies into the field it is reading: not
    the delimiter, not the quote character, not a newline and not NUL. *)
Definition is_plain (c : ascii) : bool :=
  negb (Ascii.eqb c csv.delimiter || Ascii.eqb c csv.quotechar
        || csv.is_newline c || Ascii.eqb c csv.NUL).

Fixpoint all_chars (P : ascii → bool) (s : string) : bool :=
  match s with
  | EmptyString => true
  | String c s' => P c && all_chars P s'
  end.

(** A field of plain characters that fits the reader's field limit. *)
Definition plain_field (f : string) : Prop :=
  all_chars is_plain f = true ∧
  N.of_nat (String.length f) ≤ csv.field_limit.

(** [','.join(fields)]. *)
Fixpoint join_comma (fields : list string) : string :=
  match fields with
  | [] => EmptyString
  | [f] => f
  | f :: fs => f ++ "," ++ join_comma fs
  end.

(** * Properties *)

(** ** Decimal numbers *)

Lemma append_cons (c : ascii) (s r : string) :
  String c s ++ r = String c (s ++ r).
Proof. reflexivity. Qed.

Lemma append_empty (r : string) : EmptyString ++ r = r.
Proof. reflexivity. Qed.

Ltac norm_append := repeat first [rewrite append_cons | rewrite append_empty].

Lemma span_digits_uint (d : Decimal.uint) (r : string) :
  head_not_digit r →
  span_digits (NilEmpty.string_of_uint d ++ r) = (NilEmpty.string_of_uint d, r).
Proof.
  intros Hr. induction d as [|d IH|d IH|d IH|d IH|d IH|d IH|d IH|d IH|d IH|d IH];
    cbn [NilEmpty.string_of_uint]; norm_append; cbn [span_digits];
    try (change (is_digit _) with true; cbn iota; rewrite IH; reflexivity).
  destruct r as [|c r]; [reflexivity|]. cbn [head_not_digit] in Hr.
  cbn [span_digits]. by rewrite Hr.
Qed.
Lemma str_of_N_nonempty (n : N) : str_of_N n ≠ EmptyString.
Proof.
  unfold str_of_N. destruct n as [|p]; [discriminate|]. cbn.
  pose proof (DecimalPos.Unsigned.to_uint_nonnil p) as Hp.
  destruct (Pos.to_uint p); [done|discriminate..].
Qed.

Lemma parse_int_str_of_N (n : N) (r : string) :
  head_not_digit r → parse_int (str_of_N n ++ r) = Some (n, r).
Proof.
  intros Hr. unfold parse_int, str_of_N.
  rewrite span_digits_uint by done.
  pose proof (str_of_N_nonempty n) as Hne. unfold str_of_N in Hne.
  destruct (NilEmpty.string_of_uint (N.to_uint n)) as [|c s] eqn:E; [done|].
  rewrite <- E, NilEmpty.usu. cbn. by rewrite DecimalN.Unsigned.of_to.
Qed.

(** ** The identifier codec *)

Lemma strip_prefix_app (p s : string) : strip_prefix p (p ++ s) = Some s.
Proof.
  induction p as [|c p IH]; [reflexivity|].
  rewrite append_cons. cbn [strip_prefix]. by rewrite Ascii.eqb_refl.
Qed.

Lemma match_enum_dataset (v : N) (name r : string) :
  name_of DATASET_VALUES v = Some name →
  match_enum DATASET_VALUES (name ++ r) = Some (v, r).
Proof.
  cbn [name_of DATASET_VALUES].
  destruct (N.eqb_spec 0 v) as [<-|_]; [by intros [= <-]|].
  destruct (N.eqb_spec 1 v) as [<-|_]; [by intros [= <-]|]. done.
Qed.

Lemma match_enum_view (v : N) (name r : string) :
  name_of VIEW_VALUES v = Some name →
  match_enum VIEW_VALUES (name ++ r) = Some (v, r).
Proof.
  cbn [name_of VIEW_VALUES].
  destruct (N.eqb_spec 0 v) as [<-|_]; [by intros [= <-]|].
  destruct (N.eqb_spec 1 v) as [<-|_]; [by intros [= <-]|].
  destruct (N.eqb_spec 2 v) as [<-|_]; [by intros [= <-]|]. done.
Qed.

Lemma name_of_is_Some (d : list (string * N)) (v : N) :
  d.*2 = N.of_nat <$> seq 0 (length d) → v < N.of_nat (length d) →
  is_Some (name_of d v).
Proof.
  intros Hd Hv. assert (v ∈ d.*2) as Hin.
  { rewrite Hd. apply list_elem_of_fmap. exists (N.to_nat v).
    split; [lia|]. apply elem_of_seq. lia. }
  clear Hd Hv. induction d as [|[n w] d IH]; [by apply elem_of_nil in Hin|].
  cbn [name_of]. destruct (N.eqb_spec w v); [by eexists|].
  apply IH. apply elem_of_cons in Hin as [?|?]; [by subst|done].
Qed.

(** Reading back the rendered path of a well-formed key gives the key. *)
Lemma path_to_ids_ids_to_path (k : Ids) :
  well_formed k → ∃ p, ids_to_path k = Ok p ∧ path_to_ids p = Ok k.
Proof.
  destruct k as [ds pa st im vw]. intros [Hds Hvw]. cbn in Hds, Hvw.
  destruct (name_of_is_Some DATASET_VALUES ds) as [dn Hdn]; [done..|].
  destruct (name_of_is_Some VIEW_VALUES vw) as [vn Hvn]; [done..|].
  unfold ids_to_path. cbn [dataset patient study image view].
  rewrite Hdn, Hvn. cbn [opt_or_raise mbind result_bind].
  eexists; split; [reflexivity|]. unfold path_to_ids.
  rewrite (match_enum_dataset _ _ _ Hdn). cbn [mbind option_bind].
  rewrite strip_prefix_app. cbn [mbind option_bind].
  rewrite parse_int_str_of_N by exact eq_refl. cbn [mbind option_bind].
  rewrite strip_prefix_app. cbn [mbind option_bind].
  rewrite parse_int_str_of_N by exact eq_refl. cbn [mbind option_bind].
  rewrite strip_prefix_app. cbn [mbind option_bind].
  rewrite parse_int_str_of_N by exact eq_refl. cbn [mbind option_bind].
  rewrite strip_prefix_app. cbn [mbind option_bind].
  rewrite (match_enum_view _ _ _ Hvn). cbn [mbind option_bind].
  reflexivity.
Qed.

Lemma is_digit_uint_of_char (c : ascii) (d : Decimal.uint) :
  is_digit c = true → is_Some (uint_of_char c (Some d)).
Proof.
  destruct c as [[|] [|] [|] [|] [|] [|] [|] [|]];
    first [discriminate | by eexists].
Qed.

Lemma all_digits_uint (s : string) :
  all_digits s = true → is_Some (NilEmpty.uint_of_string s).
Proof.
  induction s as [|c s IH]; [by eexists|].
  cbn [all_digits NilEmpty.uint_of_string]. intros [Hc Hs]%andb_prop.
  destruct (IH Hs) as [d ->]. by apply is_digit_uint_of_char.
Qed.

(** A numeral in normal form is the rendering of the number it denotes. *)
Lemma canonical_number_str_of_N (s : string) :
  canonical_number s = true → ∃ n, s = str_of_N n.
Proof.
  destruct s as [|c s]; [done|]. cbn [canonical_number].
  destruct (Ascii.eqb_spec c "0") as [->|Hc0].
  { destruct s; [|done]. intros _. by exists 0. }
  intros [Hc Hs]%andb_prop.
  destruct (all_digits_uint (String c s)) as [d Hd].
  { cbn [all_digits]. by rewrite Hc, Hs. }
  exists (N.of_uint d). unfold str_of_N.
  rewrite DecimalN.Unsigned.to_of. pose proof (NilEmpty.sus _ _ Hd) as <-.
  f_equal. cbn [NilEmpty.uint_of_string] in Hd.
  destruct (NilEmpty.uint_of_string s) as [d'|]; [|done].
  apply uint_of_char_spec in Hd.
  destruct Hd as [[??]|Hd]; [done|].
  repeat (destruct Hd as [[_ ->]|Hd]; [reflexivity|]).
  by destruct Hd as [_ ->].
Qed.

Lemma name_of_member (d : list (string * N)) (name : string) :
  NoDup d.*2 → name ∈ d.*1 → ∃ v, v ∈ d.*2 ∧ name_of d v = Some name.
Proof.
  induction d as [|[n w] d IH]; [by intros _ ?%elem_of_nil|].
  cbn [fmap list_fmap fst snd]. intros [Hw Hd]%NoDup_cons [->|Hin]%elem_of_cons.
  - exists w. split; [by left|]. cbn [name_of]. by rewrite N.eqb_refl.
  - destruct (IH Hd Hin) as (v & Hv & Hn). exists v. split; [by right|].
    cbn [name_of]. destruct (N.eqb_spec w v) as [->|]; done.
Qed.

Lemma canonical_path_rendered (p : string) :
  canonical_path p → ∃ k, well_formed k ∧ ids_to_path k = Ok p.
Proof.
  intros (split & pa & st & im & vw & Hsp & Hvw & Hpa & Hst & Him & ->).
  apply canonical_number_str_of_N in Hpa as [npa ->].
  apply canonical_number_str_of_N in Hst as [nst ->].
  apply canonical_number_str_of_N in Him as [nim ->].
  apply name_of_member in Hsp as (ds & Hds & Hdn);
    [|by apply (bool_decide_unpack _)].
  apply name_of_member in Hvw as (v & Hv & Hvn);
    [|by apply (bool_decide_unpack _)].
  exists (mk_ids ds npa nst nim v). split.
  - split; cbn in Hds, Hv |- *.
    + repeat (apply elem_of_cons in Hds as [->|Hds]; [lia|]).
      by apply elem_of_nil in Hds.
    + repeat (apply elem_of_cons in Hv as [->|Hv]; [lia|]).
      by apply elem_of_nil in Hv.
  - unfold ids_to_path. cbn [dataset patient study image view].
    by rewrite Hdn, Hvn.
Qed.

(** C2. The identifier codec is a pair of mutually inverse maps: reading
    back the path rendered from a well-formed key gives the key, and
    rendering the key read from a canonical path gives the path. *)
Theorem codec_round_trip :
  (∀ k, well_formed k → ∃ p, ids_to_path k = Ok p ∧ path_to_ids p = Ok k) ∧
  (∀ p, canonical_path p → ∃ k, path_to_ids p = Ok k ∧ ids_to_path k = Ok p).
Proof.
  split; [exact path_to_ids_ids_to_path|].
  intros p (k & Hk & Hp)%canonical_path_rendered.
  destruct (path_to_ids_ids_to_path k Hk) as (p' & Hp' & Hr).
  rewrite Hp in Hp'. injection Hp' as <-. by exists k.
Qed.

Lemma match_enum_member (d : list (string * N)) (s r : string) (v : N) :
  match_enum d s = Some (v, r) → v ∈ d.*2.
Proof.
  induction d as [|[n w] d IH]; [done|]. cbn [match_enum].
  destruct (strip_prefix n s).
  - intros [= <- _]. by left.
  - intros ?. right. by apply IH.
Qed.

(** Every key that [path_to_ids] returns is well formed. *)
Lemma path_to_ids_well_formed (p : string) (k : Ids) :
  path_to_ids p = Ok k → well_formed k.
Proof.
  unfold path_to_ids. intros H.
  destruct (match_enum DATASET_VALUES p) as [[ds r0]|] eqn:Hds; [|done].
  cbn [mbind option_bind] in H.
  repeat match type of H with
  | context [mbind _ ?o] =>
      let E := fresh "E" in
      destruct o as [[]|] eqn:E; cbn [mbind option_bind] in H; [|done]
  | context [mbind _ ?o] =>
      let E := fresh "E" in
      destruct o eqn:E; cbn [mbind option_bind] in H; [|done]
  end.
  destruct (String.eqb _ _); [|done]. injection H as <-.
  apply match_enum_member in Hds.
  match goal with E : match_enum VIEW_VALUES _ = _ |- _ =>
    apply match_enum_member in E as Hvw end.
  split; cbn in Hds, Hvw |- *.
  - repeat (apply elem_of_cons in Hds as [->|Hds]; [lia|]).
    by apply elem_of_nil in Hds.
  - repeat (apply elem_of_cons in Hvw as [->|Hvw]; [lia|]).
    by apply elem_of_nil in Hvw.
Qed.

Lemma ids_to_path_well_formed (k : Ids) :
  well_formed k → ∃ p, ids_to_path k = Ok p.
Proof. intros (p & Hp & _)%path_to_ids_ids_to_path. by exists p. Qed.

(** ** The label converter *)

(** C3. [convert] accepts exactly the four encodings, each with its own
    code, and raises a [ValueError] naming the string on any other one. *)
Theorem convert_exact (s : string) :
  (s = EmptyString ∧ ChexpertConverter.convert s = Ok not_mentioned) ∨
  (s = "1.0" ∧ ChexpertConverter.convert s = Ok positive) ∨
  (s = "-1.0" ∧ ChexpertConverter.convert s = Ok uncertain) ∨
  (s = "0.0" ∧ ChexpertConverter.convert s = Ok negative) ∨
  ((s ∉ chexpert_encodings) ∧
   ChexpertConverter.convert s
   = Raise (ValueError ("unrecognized chexpert encoding: " ++ s))).
Proof.
  unfold ChexpertConverter.convert, ChexpertConverter.chexpert_code_to_index.
  destruct (decide (s = "0.0")) as [->|H0].
  { do 3 right. left. by rewrite lookup_insert_eq. }
  rewrite lookup_insert_ne by done.
  destruct (decide (s = "-1.0")) as [->|H1].
  { do 2 right. left. by rewrite lookup_insert_eq. }
  rewrite lookup_insert_ne by done.
  destruct (decide (s = "1.0")) as [->|H2].
  { right. left. by rewrite lookup_insert_eq. }
  rewrite lookup_insert_ne by done.
  destruct (decide (s = EmptyString)) as [->|H3].
  { left. by rewrite lookup_insert_eq. }
  rewrite lookup_insert_ne, lookup_empty by done.
  do 4 right. split; [|done].
  unfold chexpert_encodings. intros Hin.
  repeat (apply elem_of_cons in Hin as [->|Hin]; [done|]).
  by apply elem_of_nil in Hin.
Qed.

(** ** Lists of results *)

Lemma mapM_Ok_length {A B} (f : A → result B) (l : list A) (ys : list B) :
  mapM f l = Ok ys → length ys = length l.
Proof.
  revert ys. induction l as [|x l IH]; intros ys; cbn [mapM].
  - by intros [= <-].
  - destruct (f x); [|done]. cbn [mbind result_bind].
    destruct (mapM f l) as [ys'|]; [|done]. cbn [mbind result_bind].
    intros [= <-]. cbn. f_equal. by apply IH.
Qed.

Lemma mapM_Ok_lookup {A B} (f : A → result B) (l : list A) (ys : list B)
    (i : nat) (x : A) :
  mapM f l = Ok ys → l !! i = Some x → ∃ y, f x = Ok y ∧ ys !! i = Some y.
Proof.
  revert ys i. induction l as [|x' l IH]; intros ys i; cbn [mapM]; [done|].
  destruct (f x') as [y'|] eqn:Hx'; [|done]. cbn [mbind result_bind].
  destruct (mapM f l) as [ys'|]; [|done]. cbn [mbind result_bind].
  intros [= <-]. destruct i as [|i]; cbn.
  - intros [= ->]. by exists y'.
  - by apply IH.
Qed.

Lemma mapM_Ok_elem_of {A B} (f : A → result B) (l : list A) (ys : list B)
    (y : B) :
  mapM f l = Ok ys → y ∈ ys → ∃ x, x ∈ l ∧ f x = Ok y.
Proof.
  revert ys. induction l as [|x l IH]; intros ys; cbn [mapM].
  - intros [= <-] ?%elem_of_nil. done.
  - destruct (f x) as [y'|] eqn:Hx; [|done]. cbn [mbind result_bind].
    destruct (mapM f l) as [ys'|]; [|done]. cbn [mbind result_bind].
    intros [= <-] [->|Hin]%elem_of_cons.
    + exists x. split; [by left|done].
    + destruct (IH _ eq_refl Hin) as (x0 & ? & ?). exists x0.
      split; [by right|done].
Qed.

(** ** Dictionaries built from zipped names and values *)

Section zip_dict.
Context {V : Type}.
Implicit Types (ks : list string) (vs : list V).

Lemma dict_of_pairs_list_to_map (l : list (string * V)) :
  dict_of_pairs l = list_to_map (reverse l).
Proof.
  unfold dict_of_pairs. induction l as [|x l IH] using rev_ind; [done|].
  rewrite foldl_app, reverse_app. cbn. by rewrite IH.
Qed.

Lemma zip_dict_lookup_None ks vs (k : string) :
  k ∉ ks → dict_of_pairs (zip ks vs) !! k = None.
Proof.
  intros Hk. rewrite dict_of_pairs_list_to_map.
  apply not_elem_of_list_to_map. rewrite fmap_reverse, elem_of_reverse.
  intros Hin. apply Hk. apply list_elem_of_fmap in Hin as ([k' v] & -> & Hin).
  by apply elem_of_zip_l in Hin.
Qed.

Lemma zip_dict_lookup ks vs (i : nat) (k : string) :
  NoDup ks → ks !! i = Some k → dict_of_pairs (zip ks vs) !! k = vs !! i.
Proof.
  intros Hnd Hi. rewrite dict_of_pairs_list_to_map.
  assert (∀ v, (k, v) ∈ reverse (zip ks vs) → vs !! i = Some v) as Hval.
  { intros v Hin. rewrite elem_of_reverse in Hin.
    apply list_elem_of_lookup in Hin as [j Hj].
    apply lookup_zip_with_Some in Hj as (?&?&[= <- <-]&Hk&Hv).
    assert (j = i) as -> by (eapply NoDup_lookup; eauto). done. }
  destruct (vs !! i) as [v|] eqn:Hv.
  - apply elem_of_list_to_map'.
    + intros v' _ Hin'. apply Hval in Hin'. congruence.
    + rewrite elem_of_reverse. apply list_elem_of_lookup. exists i.
      apply lookup_zip_with_Some. eauto.
  - apply not_elem_of_list_to_map.
    intros Hin. apply list_elem_of_fmap in Hin as ([k' v] & -> & Hin).
    by apply Hval in Hin.
Qed.

End zip_dict.

(** ** Label rows *)

Lemma bind_Ok {A B} (c : result A) (k : A → result B) (y : B) :
  c ≫= k = Ok y ↔ ∃ x, c = Ok x ∧ k x = Ok y.
Proof.
  destruct c as [x|e]; cbn [mbind result_bind]; split.
  - intros ?. by exists x.
  - by intros (? & [= <-] & ?).
  - done.
  - by intros (? & [=] & _).
Qed.

(** What [parse_csv_row] does with the row that the CSV reader returns. *)
Lemma parse_csv_row_of_row (line : string) (row : list string) :
  csv.next_reader line = Ok row →
  parse_csv_row line =
    (row0 ← opt_or_raise (IndexError "list index out of range") (row !! 0%nat);
     ids ← path_to_ids row0;
     labels ← mapM ChexpertConverter.convert (drop 2 row);
     Ok (ids, labels)).
Proof. intros H. unfold parse_csv_row. by rewrite H. Qed.

(** C4. Two label lines whose rows differ only in the second field, the view
    column, parse to the same record, and the key of the record is the one
    read from the path field. *)
Theorem parse_csv_row_ignores_view (l1 l2 p v1 v2 : string)
    (rest : list string) :
  csv.next_reader l1 = Ok (p :: v1 :: rest) →
  csv.next_reader l2 = Ok (p :: v2 :: rest) →
  parse_csv_row l1 = parse_csv_row l2 ∧
  ∀ ids labels, parse_csv_row l1 = Ok (ids, labels) → path_to_ids p = Ok ids.
Proof.
  intros H1 H2.
  rewrite (parse_csv_row_of_row _ _ H1), (parse_csv_row_of_row _ _ H2).
  split; [done|]. cbn [lookup list_lookup opt_or_raise mbind result_bind drop].
  intros ids labels (ids' & Hids & (labels' & _ & [= <- _])%bind_Ok)%bind_Ok.
  done.
Qed.

(** ** BigQuery rows *)

Lemma label_names_NoDup : NoDup LABEL_NAMES.
Proof. by apply (bool_decide_unpack _). Qed.

Lemma id_names_NoDup : NoDup ID_NAMES.*1.
Proof. by apply (bool_decide_unpack _). Qed.

Lemma label_names_fresh :
  Forall (λ name, (name ∉ ID_NAMES.*1) ∧ name ≠ "path") LABEL_NAMES.
Proof. by apply (bool_decide_unpack _). Qed.

Lemma id_names_fresh : Forall (λ name, name ≠ "path") ID_NAMES.*1.
Proof. by apply (bool_decide_unpack _). Qed.

(** The fields of the row built for a label record. *)
Lemma to_bigquery_json_fields (ids : Ids) (row : list LabelCode) :
  well_formed ids →
  ∃ bq path,
    to_bigquery_json (ids, row) = Ok bq ∧ ids_to_path ids = Ok path ∧
    bq !! "path" = Some (BqStr path) ∧
    (∀ i name, ID_NAMES.*1 !! i = Some name →
               bq !! name = BqInt <$> ids_tuple ids !! i) ∧
    (∀ i name, LABEL_NAMES !! i = Some name →
               bq !! name = BqLabel <$> row !! i) ∧
    (∀ name, is_Some (bq !! name) →
             name = "path" ∨ name ∈ ID_NAMES.*1 ∨
             name ∈ take (length row) LABEL_NAMES).
Proof.
  intros [path Hpath]%ids_to_path_well_formed.
  unfold to_bigquery_json. rewrite Hpath. cbn [mbind result_bind].
  eexists _, path. split; [reflexivity|]. split; [done|].
  unfold dict_update. repeat split.
  - by rewrite lookup_insert_eq.
  - intros i name Hi.
    pose proof id_names_fresh as Hf. rewrite Forall_lookup in Hf.
    rewrite lookup_insert_ne by (symmetry; by eapply Hf).
    rewrite <- list_lookup_fmap.
    destruct ((BqInt <$> ids_tuple ids) !! i) as [v|] eqn:Hv.
    + apply lookup_union_Some_l.
      rewrite (zip_dict_lookup _ _ i) by (done || apply id_names_NoDup). done.
    + apply lookup_lt_Some in Hi. apply lookup_ge_None in Hv.
      rewrite length_fmap in Hi. rewrite length_fmap in Hv.
      cbn in Hi, Hv. lia.
  - intros i name Hi.
    pose proof label_names_fresh as Hf. rewrite Forall_lookup in Hf.
    destruct (Hf _ _ Hi) as [Hid Hp].
    rewrite lookup_insert_ne by done.
    rewrite lookup_union_r by (by apply zip_dict_lookup_None).
    rewrite (zip_dict_lookup _ _ i) by (done || apply label_names_NoDup).
    by rewrite list_lookup_fmap.
  - intros name Hs. destruct (decide (name = "path")) as [|Hp]; [by left|].
    right. rewrite lookup_insert_ne in Hs by done.
    destruct (decide (name ∈ ID_NAMES.*1)) as [|Hid]; [by left|]. right.
    rewrite lookup_union_r in Hs by (by apply zip_dict_lookup_None).
    destruct (decide (name ∈ LABEL_NAMES)) as [Hin|Hl].
    + apply list_elem_of_lookup in Hin as [i Hi].
      rewrite (zip_dict_lookup _ _ i) in Hs
        by (done || apply label_names_NoDup).
      rewrite list_lookup_fmap, fmap_is_Some in Hs.
      apply lookup_lt_is_Some in Hs.
      apply list_elem_of_lookup. exists i. by rewrite lookup_take_lt.
    + rewrite zip_dict_lookup_None in Hs by done. by destruct Hs.
Qed.

(** C10. The label parser checks no count: on a row whose path field reads
    as a key, the outcome is that of converting the fields after the second
    one by one, with as many codes as there are such fields, however few;
    and the BigQuery row built from a short vector has no field for the
    categories beyond its length. *)
Theorem parse_csv_row_no_count_check (line p : string) (row : list string)
    (ids : Ids) :
  csv.next_reader line = Ok row → row !! 0%nat = Some p →
  path_to_ids p = Ok ids →
  parse_csv_row line
    = (labels ← mapM ChexpertConverter.convert (drop 2 row); Ok (ids, labels)) ∧
  ∀ labels, mapM ChexpertConverter.convert (drop 2 row) = Ok labels →
    parse_csv_row line = Ok (ids, labels) ∧
    length labels = (length row - 2)%nat ∧
    ∃ bq, to_bigquery_json (ids, labels) = Ok bq ∧
      ∀ i name, LABEL_NAMES !! i = Some name →
        bq !! name = BqLabel <$> labels !! i ∧
        ((length labels ≤ i)%nat → bq !! name = None).
Proof.
  intros Hrow Hp Hids. rewrite (parse_csv_row_of_row _ _ Hrow), Hp.
  cbn [opt_or_raise mbind result_bind]. rewrite Hids.
  cbn [mbind result_bind]. split; [done|]. intros labels Hl. rewrite Hl.
  split; [done|]. split.
  { apply mapM_Ok_length in Hl. by rewrite length_drop in Hl. }
  destruct (to_bigquery_json_fields ids labels) as (bq & ? & Hbq & _ & _ & _ & Hlab & _).
  { by eapply path_to_ids_well_formed. }
  exists bq. split; [done|]. intros i name Hi. split; [by apply Hlab|].
  intros Hlen. rewrite (Hlab _ _ Hi). by rewrite lookup_ge_None_2.
Qed.

(** ** Training records *)

Lemma to_tf_example_single (ids : Ids) (jpg : bytes) (row : list LabelCode) :
  to_tf_example (ids, mk_join [jpg] [row])
  = mk_example <$> build_features jpg ids row.
Proof.
  unfold to_tf_example. cbn [jpgs rows length Nat.eqb negb orb lookup
    list_lookup opt_or_raise mbind result_bind].
  by destruct (build_features jpg ids row).
Qed.



(** C6. On a group with one image and one label row the record builder
    fails with a [RecordBuildError] when the image buffer is empty or the
    label vector has not one entry for each category. *)
Theorem to_tf_example_record_build_error (ids : Ids) (jpg : bytes)
    (row : list LabelCode) :
  jpg = [] ∨ length row ≠ 14%nat →
  ∃ msg, to_tf_example (ids, mk_join [jpg] [row]) = Raise (RecordBuildError msg).
Proof.
  intros H. rewrite to_tf_example_single. unfold build_features.
  destruct (decide (jpg = [])); [by eexists|].
  destruct (decide (length row ≠ length LABEL_NAMES)) as [|Hn]; [by eexists|].
  destruct H as [?|H]; [done|]. destruct Hn. exact H.
Qed.

(** ** The check on the input files *)

(** C9. When the patterns match no file the run raises a [ValueError] and
    nothing of the pipeline is evaluated; when they match some file the run
    is that of the pipeline on the matched files. *)
Theorem build_and_run_pipeline_input_check (env : Env)
    (input_tars : list string) (input_csv : string)
    (output_jpg_dir output_bq_table output_tfrecord_dir : option string)
    (output_image_shape : option (list N)) :
  (concat (glob env <$> input_tars) = [] →
   build_and_run_pipeline env input_tars input_csv output_jpg_dir
     output_bq_table output_tfrecord_dir output_image_shape
   = Raise (ValueError "No matching tar files were found.")) ∧
  (concat (glob env <$> input_tars) ≠ [] →
   build_and_run_pipeline env input_tars input_csv output_jpg_dir
     output_bq_table output_tfrecord_dir output_image_shape
   = run_pipeline env (concat (glob env <$> input_tars)) input_csv
       output_jpg_dir output_bq_table output_tfrecord_dir
       output_image_shape).
Proof.
  unfold build_and_run_pipeline.
  split; intros H; by destruct (decide (concat (glob env <$> input_tars) = [])).
Qed.

(** ** The partition on the view *)

Lemma mapM_fmap_Ok {A B} (f : A → result B) (g : A → B) (l : list A) :
  (∀ x, x ∈ l → f x = Ok (g x)) → mapM f l = Ok (g <$> l).
Proof.
  induction l as [|x l IH]; intros Hl; cbn [mapM]; [done|].
  rewrite Hl by left. cbn [mbind result_bind].
  rewrite IH by (intros; apply Hl; by right). done.
Qed.

Lemma partition_on_view_Ok (kv : Ids * Join) (n : nat) :
  partition_on_view kv n = Ok (view kv.1).
Proof. reflexivity. Qed.

Lemma filter_tagged {A} (g : A → N) (j : N) (l : list A) :
  (filter (λ t, t.1 = j) ((λ x, (g x, x)) <$> l)).*2
  = filter (λ x, g x = j) l.
Proof.
  induction l as [|x l IH]; [done|]. cbn [fmap list_fmap].
  rewrite !filter_cons. cbn [fst]. destruct (decide (g x = j)); [|done].
  cbn [fmap list_fmap snd]. by f_equal.
Qed.

(** With every selection in range, the outputs of [Partition] are the
    input filtered by the selected index. *)
Lemma Partition_filter {A} (g : A → N) (fn : A → nat → result N) (n : nat)
    (l : list A) :
  (∀ x, x ∈ l → fn x n = Ok (g x) ∧ g x < N.of_nat n) →
  Partition fn n l
  = Ok ((λ j, filter (λ x, g x = N.of_nat j) l) <$> seq 0 n).
Proof.
  intros Hl. unfold Partition.
  rewrite (mapM_fmap_Ok _ (λ x, (g x, x))).
  - cbn [mbind result_bind]. f_equal. apply list_fmap_ext.
    intros _ j _. apply filter_tagged.
  - intros x [-> Hlt]%Hl. cbn [mbind result_bind].
    by apply N.ltb_lt in Hlt as ->.
Qed.

Lemma filter_three_Permutation {A} (g : A → N) (l : list A) :
  (∀ x, x ∈ l → g x < 3) →
  filter (λ x, g x = 0) l ++ filter (λ x, g x = 1) l
    ++ filter (λ x, g x = 2) l ≡ₚ l.
Proof.
  induction l as [|x l IH]; intros Hl; [done|].
  assert (g x = 0 ∨ g x = 1 ∨ g x = 2) as Hx
    by (specialize (Hl x (list_elem_of_here _ _)); lia).
  specialize (IH (λ y Hy, Hl y (list_elem_of_further _ _ _ Hy))).
  rewrite !filter_cons.
  destruct Hx as [Hx|[Hx|Hx]]; rewrite Hx;
    repeat (case_decide; try done); cbn [app].
  - by constructor.
  - rewrite <- Permutation_middle. by constructor.
  - rewrite app_assoc, <- Permutation_middle, <- app_assoc. by constructor.
Qed.

(** On groups with well-formed keys the partition on the view yields the
    three outputs that hold the groups of view 0, 1 and 2. *)
Lemma Partition_on_view_parts (joined : list (Ids * Join)) :
  (∀ kv, kv ∈ joined → well_formed kv.1) →
  Partition partition_on_view (length VIEW_VALUES) joined
  = Ok [filter (λ kv, view kv.1 = 0) joined;
        filter (λ kv, view kv.1 = 1) joined;
        filter (λ kv, view kv.1 = 2) joined].
Proof.
  intros Hwf. rewrite (Partition_filter (λ kv, view kv.1)); [done|].
  intros kv [_ Hv]%Hwf. split; [apply partition_on_view_Ok|exact Hv].
Qed.

(** C5. The partition has as many outputs as there are views; a group goes
    to the output whose index is the code of its key's view and to no other;
    and the outputs together hold every group exactly once. *)
Theorem partition_on_view_total_disjoint (joined : list (Ids * Join)) :
  (∀ kv, kv ∈ joined → well_formed kv.1) →
  ∃ parts,
    Partition partition_on_view (length VIEW_VALUES) joined = Ok parts ∧
    length parts = length VIEW_VALUES ∧
    (∀ i part, parts !! i = Some part →
       part = filter (λ kv, view kv.1 = N.of_nat i) joined) ∧
    (∀ kv i part, kv ∈ joined → parts !! i = Some part →
       kv ∈ part ↔ view kv.1 = N.of_nat i) ∧
    concat parts ≡ₚ joined ∧
    (NoDup joined.*1 → NoDup (concat parts).*1).
Proof.
  intros Hwf. eexists. split; [by apply Partition_on_view_parts|].
  assert (concat [filter (λ kv, view kv.1 = 0) joined;
                  filter (λ kv, view kv.1 = 1) joined;
                  filter (λ kv, view kv.1 = 2) joined] ≡ₚ joined)
    as Hperm.
  { cbn [concat]. rewrite app_nil_r.
    apply (filter_three_Permutation (λ kv, view kv.1)).
    intros kv [_ Hv]%Hwf. exact Hv. }
  split; [done|]. split; [|split; [|split; [done|]]].
  - intros [|[|[|i]]] part; cbn; intros [= <-]; done.
  - intros kv [|[|[|i]]] part Hkv; cbn; intros [= <-];
      rewrite list_elem_of_filter; tauto.
  - intros Hnd. by rewrite Hperm.
Qed.

(** ** The run of the pipeline *)

Lemma mapM_Ok_elem_of_2 {A B} (f : A → result B) (l : list A) (ys : list B)
    (x : A) :
  mapM f l = Ok ys → x ∈ l → ∃ y, f x = Ok y ∧ y ∈ ys.
Proof.
  intros Hm [i Hi]%list_elem_of_lookup.
  destruct (mapM_Ok_lookup _ _ _ _ _ Hm Hi) as (y & ? & Hy).
  exists y. split; [done|]. by eapply list_elem_of_lookup_2.
Qed.

Lemma label_rows_well_formed (env : Env) (input_csv : string)
    (rs : list (Ids * list LabelCode)) :
  label_rows env input_csv = Ok rs → ∀ r, r ∈ rs → well_formed r.1.
Proof.
  intros Hm r Hr.
  destruct (mapM_Ok_elem_of _ _ _ _ Hm Hr) as (line & _ & Hline).
  unfold parse_csv_row in Hline.
  apply bind_Ok in Hline as (row & _ & Hline).
  apply bind_Ok in Hline as (row0 & _ & Hline).
  apply bind_Ok in Hline as (ids & Hids & Hline).
  apply bind_Ok in Hline as (labels & _ & [= <-]).
  by eapply path_to_ids_well_formed.
Qed.

Lemma elem_of_concat {A} (x : A) (ls : list (list A)) :
  x ∈ concat ls ↔ ∃ l, x ∈ l ∧ l ∈ ls.
Proof.
  induction ls as [|l ls IH]; cbn [concat].
  - split; [by intros ?%elem_of_nil|]. by intros (? & _ & ?%elem_of_nil).
  - rewrite elem_of_app, IH. split.
    + intros [?|(l' & ? & ?)]; [exists l|exists l']; split; try done;
        by constructor.
    + intros (l' & ? & [->|?]%elem_of_cons); [by left|]. right. by exists l'.
Qed.

Lemma ParDo_Ok_elem_of {A B} (f : A → result (list B)) (l : list A)
    (ys : list B) (y : B) :
  ParDo f l = Ok ys → y ∈ ys → ∃ x zs, x ∈ l ∧ f x = Ok zs ∧ y ∈ zs.
Proof.
  unfold ParDo. destruct (mapM f l) as [zss|] eqn:Hm; [|done].
  cbn [fmap result_fmap]. intros [= <-] Hy.
  apply elem_of_concat in Hy as (zs & Hy & Hzs).
  destruct (mapM_Ok_elem_of _ _ _ _ Hm Hzs) as (x & ? & ?). by exists x, zs.
Qed.

Lemma image_records_well_formed (env : Env) (input_paths : list string)
    (shape : option (list N)) (js : list (Ids * bytes)) :
  image_records env input_paths shape = Ok js →
  ∀ j, j ∈ js → well_formed j.1.
Proof.
  unfold image_records. intros (js0 & Hjs0 & Hjs)%bind_Ok.
  assert (∀ j, j ∈ js0 → well_formed j.1) as H0.
  { intros j Hj.
    destruct (ParDo_Ok_elem_of _ _ _ _ Hjs0 Hj) as (tar & es & _ & Hes & Hin).
    destruct (mapM_Ok_elem_of _ _ _ _ Hes Hin) as (entry & _ & He).
    apply bind_Ok in He as (ids & Hids & [= <-]).
    by eapply path_to_ids_well_formed. }
  destruct shape as [sh|]; [|by injection Hjs as <-].
  intros j Hj. destruct (mapM_Ok_elem_of _ _ _ _ Hjs Hj) as (j0 & Hj0 & Hr).
  apply bind_Ok in Hr as (b & _ & [= <-]). cbn [fst]. by apply H0.
Qed.

Lemma CoGroupByKey_key (js : list (Ids * bytes))
    (rs : list (Ids * list LabelCode)) (kv : Ids * Join) :
  kv ∈ CoGroupByKey js rs → kv.1 ∈ (js.*1 ++ rs.*1)%list.
Proof.
  unfold CoGroupByKey. intros (k & -> & Hk)%list_elem_of_fmap.
  cbn [fst]. by rewrite elem_of_remove_dups in Hk.
Qed.

Lemma CoGroupByKey_keys_NoDup (js : list (Ids * bytes))
    (rs : list (Ids * list LabelCode)) :
  NoDup (CoGroupByKey js rs).*1.
Proof.
  unfold CoGroupByKey. rewrite <- list_fmap_compose.
  rewrite (list_fmap_ext _ id) by done.
  rewrite list_fmap_id. apply NoDup_remove_dups.
Qed.

Lemma CoGroupByKey_well_formed (env : Env) (input_csv : string)
    (input_paths : list string) (shape : option (list N))
    (js : list (Ids * bytes)) (rs : list (Ids * list LabelCode)) :
  label_rows env input_csv = Ok rs →
  image_records env input_paths shape = Ok js →
  ∀ kv, kv ∈ CoGroupByKey js rs → well_formed kv.1.
Proof.
  intros Hrs Hjs kv [Hk|Hk]%CoGroupByKey_key%elem_of_app;
    apply list_elem_of_fmap in Hk as (x & -> & Hx).
  - by eapply image_records_well_formed.
  - by eapply label_rows_well_formed.
Qed.

(** The outputs of a completed run, stage by stage. *)
Lemma run_pipeline_Ok (env : Env) (input_paths : list string)
    (input_csv : string) (jd bq td : option string)
    (shape : option (list N)) (out : Outputs) :
  run_pipeline env input_paths input_csv jd bq td shape = Ok out →
  ∃ rs,
    label_rows env input_csv = Ok rs ∧
    match bq with
    | Some table =>
        ∃ bqs, mapM to_bigquery_json rs = Ok bqs ∧
               bq_rows out = Some (table, bqs)
    | None => bq_rows out = None
    end ∧
    match jd, td with
    | None, None => jpg_files out = [] ∧ tfrecords out = []
    | _, _ =>
        ∃ js,
          image_records env input_paths shape = Ok js ∧
          match jd with
          | Some dir =>
              mapM (λ e, write_jpg e (with_slash dir)) js = Ok (jpg_files out)
          | None => jpg_files out = []
          end ∧
          match td with
          | Some dir =>
              ∃ exs_f exs_l,
                mapM to_tf_example
                  (filter (λ kv, view kv.1 = 0) (CoGroupByKey js rs))
                  = Ok exs_f ∧
                mapM to_tf_example
                  (filter (λ kv, view kv.1 = 1) (CoGroupByKey js rs))
                  = Ok exs_l ∧
                tfrecords out = [(with_slash dir ++ "frontal", exs_f);
                                 (with_slash dir ++ "lateral", exs_l)]
          | None => tfrecords out = []
          end
    end.
Proof.
  unfold run_pipeline. fold (label_rows env input_csv).
  intros (rs & Hrs & H)%bind_Ok. exists rs. split; [done|].
  apply bind_Ok in H as (bqv & Hbq & H).
  assert (match bq with
          | Some table => ∃ bqs, mapM to_bigquery_json rs = Ok bqs ∧
                                 bqv = Some (table, bqs)
          | None => bqv = None
          end) as Hbqv.
  { destruct bq as [table|].
    - apply bind_Ok in Hbq as (bqs & ? & [= <-]). by exists bqs.
    - by injection Hbq as <-. }
  clear Hbq.
  assert (∀ o : Outputs,
    (jpgs ← ParDo (ReadTarFile env path_to_ids) input_paths;
     jpgs ← match shape with
            | Some shape => mapM (ResizeImage env shape) jpgs
            | None => Ok jpgs
            end;
     files ← match jd with
             | Some dir => mapM (λ e, write_jpg e (with_slash dir)) jpgs
             | None => Ok []
             end;
     let joined := CoGroupByKey jpgs rs in
     parts ← Partition partition_on_view (length VIEW_VALUES) joined;
     match parts with
     | [frontal; lateral; _] =>
         tf ← match td with
              | Some dir =>
                  mapM (λ pn, exs ← mapM to_tf_example pn.1;
                              Ok (with_slash dir ++ pn.2, exs))
                       [(frontal, "frontal"); (lateral, "lateral")]
              | None => Ok []
              end;
         Ok (mk_outputs bqv files tf)
     | _ => Raise (ValueError "wrong number of values to unpack")
     end) = Ok o →
    bq_rows o = bqv ∧
    ∃ js,
      image_records env input_paths shape = Ok js ∧
      match jd with
      | Some dir =>
          mapM (λ e, write_jpg e (with_slash dir)) js = Ok (jpg_files o)
      | None => jpg_files o = []
      end ∧
      match td with
      | Some dir =>
          ∃ exs_f exs_l,
            mapM to_tf_example
              (filter (λ kv, view kv.1 = 0) (CoGroupByKey js rs)) = Ok exs_f ∧
            mapM to_tf_example
              (filter (λ kv, view kv.1 = 1) (CoGroupByKey js rs)) = Ok exs_l ∧
            tfrecords o = [(with_slash dir ++ "frontal", exs_f);
                           (with_slash dir ++ "lateral", exs_l)]
      | None => tfrecords o = []
      end) as Hjoin.
  { intros o (js0 & Hjs0 & (js & Hjs & (files & Hfiles & Ho)%bind_Ok)%bind_Ok)%bind_Ok.
    assert (image_records env input_paths shape = Ok js) as Himg.
    { unfold image_records. by rewrite Hjs0. }
    cbn zeta in Ho.
    rewrite Partition_on_view_parts in Ho
      by (by eapply CoGroupByKey_well_formed).
    cbn [mbind result_bind] in Ho.
    apply bind_Ok in Ho as (tf & Htf & [= <-]).
    cbn [bq_rows jpg_files tfrecords].
    split; [done|]. exists js. split; [done|]. split.
    { destruct jd; [done|]. by injection Hfiles as <-. }
    destruct td as [dir|]; [|by injection Htf as <-].
    cbn [mapM fst snd] in Htf.
    apply bind_Ok in Htf as (pf & Hpf & Htf).
    apply bind_Ok in Hpf as (exs_f & Hexf & Hpf).
    apply bind_Ok in Htf as (tl & Htl & Htf).
    apply bind_Ok in Htl as (pl & Hpl & Htl).
    apply bind_Ok in Hpl as (exs_l & Hexl & Hpl).
    cbn [mbind result_bind] in Htl.
    exists exs_f, exs_l. split; [done|]. split; [done|]. congruence. }
  destruct jd as [jdir|], td as [tdir|];
    try (destruct (Hjoin _ H) as (Hb & Hrest); split; [|exact Hrest];
         rewrite Hb; exact Hbqv).
  injection H as <-. cbn [bq_rows jpg_files tfrecords]. done.
Qed.

Lemma build_and_run_pipeline_Ok (env : Env) (input_tars : list string)
    (input_csv : string) (jd bq td : option string)
    (shape : option (list N)) (out : Outputs) :
  build_and_run_pipeline env input_tars input_csv jd bq td shape = Ok out →
  run_pipeline env (concat (glob env <$> input_tars)) input_csv jd bq td shape
  = Ok out.
Proof.
  unfold build_and_run_pipeline.
  by destruct (decide (concat (glob env <$> input_tars) = [])).
Qed.

(** The view feature of a built record is the view of the group's key. *)
Lemma to_tf_example_view (kv : Ids * Join) (ex : Example) :
  to_tf_example kv = Ok ex →
  example_view ex = Some (Int64Feature (view kv.1)).
Proof.
  destruct kv as [ids join]. unfold to_tf_example.
  destruct (negb _ || negb _).
  { by intros (? & _ & [=])%bind_Ok. }
  intros (jpg & _ & (row & _ & (fs & Hfs & [= <-])%bind_Ok)%bind_Ok)%bind_Ok.
  unfold build_features in Hfs.
  destruct (decide (jpg = [])); [done|].
  destruct (decide (length row ≠ length LABEL_NAMES)); [done|].
  injection Hfs as <-. by destruct ids.
Qed.

(** C7. In a completed run that writes TFRecords, the records written are
    those built from the groups of the frontal and of the lateral view, under
    the two file prefixes, so that no written record has the view 'other';
    every image record is nevertheless written as a JPG file when a JPG
    directory is given, and every label record has its BigQuery row when a
    table is given, whatever the view. *)
Theorem tfrecords_only_frontal_lateral (env : Env) (input_tars : list string)
    (input_csv : string) (jd bq : option string) (dir : string)
    (shape : option (list N)) (out : Outputs) :
  build_and_run_pipeline env input_tars input_csv jd bq (Some dir) shape
    = Ok out →
  ∃ rs js exs_f exs_l,
    label_rows env input_csv = Ok rs ∧
    image_records env (concat (glob env <$> input_tars)) shape = Ok js ∧
    mapM to_tf_example (filter (λ kv, view kv.1 = 0) (CoGroupByKey js rs))
      = Ok exs_f ∧
    mapM to_tf_example (filter (λ kv, view kv.1 = 1) (CoGroupByKey js rs))
      = Ok exs_l ∧
    tfrecords out = [(with_slash dir ++ "frontal", exs_f);
                     (with_slash dir ++ "lateral", exs_l)] ∧
    (∀ file exs ex, (file, exs) ∈ tfrecords out → ex ∈ exs →
       example_view ex = Some (Int64Feature 0) ∨
       example_view ex = Some (Int64Feature 1)) ∧
    (∀ jdir j, jd = Some jdir → j ∈ js →
       ∃ path, ids_to_path j.1 = Ok path ∧
               (with_slash jdir ++ path, j.2) ∈ jpg_files out) ∧
    (∀ table r, bq = Some table → r ∈ rs →
       ∃ bqs row, bq_rows out = Some (table, bqs) ∧
                  to_bigquery_json r = Ok row ∧ row ∈ bqs).
Proof.
  intros (rs & Hrs & Hbq & Hj)%build_and_run_pipeline_Ok%run_pipeline_Ok.
  assert (∃ js,
    image_records env (concat (glob env <$> input_tars)) shape = Ok js ∧
    match jd with
    | Some d => mapM (λ e, write_jpg e (with_slash d)) js = Ok (jpg_files out)
    | None => jpg_files out = []
    end ∧
    ∃ exs_f exs_l,
      mapM to_tf_example (filter (λ kv, view kv.1 = 0) (CoGroupByKey js rs))
        = Ok exs_f ∧
      mapM to_tf_example (filter (λ kv, view kv.1 = 1) (CoGroupByKey js rs))
        = Ok exs_l ∧
      tfrecords out = [(with_slash dir ++ "frontal", exs_f);
                       (with_slash dir ++ "lateral", exs_l)])
    as (js & Hjs & Hfiles & exs_f & exs_l & Hf & Hl & Htf).
  { by destruct jd. }
  clear Hj. exists rs, js, exs_f, exs_l. repeat (split; [done|]).
  split; [|split].
  - intros file exs ex Hin Hex. rewrite Htf in Hin.
    apply elem_of_cons in Hin as [[= -> ->]|Hin];
      [|apply elem_of_cons in Hin as [[= -> ->]|Hin];
        [|by apply elem_of_nil in Hin]].
    + destruct (mapM_Ok_elem_of _ _ _ _ Hf Hex) as (kv & Hkv & Hb).
      apply list_elem_of_filter in Hkv as [Hv _].
      left. rewrite <- Hv. by apply to_tf_example_view.
    + destruct (mapM_Ok_elem_of _ _ _ _ Hl Hex) as (kv & Hkv & Hb).
      apply list_elem_of_filter in Hkv as [Hv _].
      right. rewrite <- Hv. by apply to_tf_example_view.
  - intros jdir j -> Hin.
    destruct (mapM_Ok_elem_of_2 _ _ _ _ Hfiles Hin) as ([file b] & Hw & Hy).
    unfold write_jpg in Hw. destruct j as [ids jb].
    apply bind_Ok in Hw as (path & Hpath & [= <- <-]). by exists path.
  - intros table r -> Hin. destruct Hbq as (bqs & Hbqs & Hout).
    destruct (mapM_Ok_elem_of_2 _ _ _ _ Hbqs Hin) as (row & ? & ?).
    by exists bqs, row.
Qed.

(** C8. The BigQuery row of a label record holds the key fields under the
    names of [ID_NAMES], the label codes under the names of [LABEL_NAMES],
    the rendered path under 'path', and nothing else; a completed run that
    writes the table writes one such row for each label record, in order,
    and these rows are determined by the lines of the CSV alone. *)
Theorem to_bigquery_json_rows :
  (∀ ids row, well_formed ids →
     ∃ bq path,
       to_bigquery_json (ids, row) = Ok bq ∧ ids_to_path ids = Ok path ∧
       bq !! "path" = Some (BqStr path) ∧
       (∀ i name, ID_NAMES.*1 !! i = Some name →
                  bq !! name = BqInt <$> ids_tuple ids !! i) ∧
       (∀ i name, LABEL_NAMES !! i = Some name →
                  bq !! name = BqLabel <$> row !! i) ∧
       (∀ name, is_Some (bq !! name) →
                name = "path" ∨ name ∈ ID_NAMES.*1 ∨
                name ∈ take (length row) LABEL_NAMES)) ∧
  (∀ env input_tars input_csv jd table td shape out,
     build_and_run_pipeline env input_tars input_csv jd (Some table) td shape
       = Ok out →
     ∃ rs bqs,
       label_rows env input_csv = Ok rs ∧
       mapM to_bigquery_json rs = Ok bqs ∧
       bq_rows out = Some (table, bqs) ∧ length bqs = length rs) ∧
  (∀ env env' tars tars' csv csv' jd jd' table td td' shape shape' out out',
     read_lines env csv = read_lines env' csv' →
     build_and_run_pipeline env tars csv jd (Some table) td shape = Ok out →
     build_and_run_pipeline env' tars' csv' jd' (Some table) td' shape'
       = Ok out' →
     bq_rows out = bq_rows out').
Proof.
  split; [exact to_bigquery_json_fields|].
  assert (∀ env input_tars input_csv jd table td shape out,
     build_and_run_pipeline env input_tars input_csv jd (Some table) td shape
       = Ok out →
     ∃ rs bqs,
       label_rows env input_csv = Ok rs ∧
       mapM to_bigquery_json rs = Ok bqs ∧
       bq_rows out = Some (table, bqs) ∧ length bqs = length rs) as Hrun.
  { intros env input_tars input_csv jd table td shape out
      (rs & Hrs & (bqs & Hbqs & Hout) & _)%build_and_run_pipeline_Ok%run_pipeline_Ok.
    exists rs, bqs. repeat (split; [done|]). by eapply mapM_Ok_length. }
  split; [exact Hrun|].
  intros env env' tars tars' csv csv' jd jd' table td td' shape shape' out out'
    Hlines (rs & bqs & Hrs & Hbqs & -> & _)%Hrun
    (rs' & bqs' & Hrs' & Hbqs' & -> & _)%Hrun.
  unfold label_rows in Hrs, Hrs'. rewrite Hlines in Hrs. congruence.
Qed.
(** ** The properties on the small dataset *)

Lemma demo_key_well_formed : well_formed demo_key.
Proof. split; reflexivity. Qed.

Lemma codec_round_trip_witness :
  well_formed demo_key ∧
  canonical_path "train/p1/s10/view1_frontal.jpg" ∧
  (∃ p, ids_to_path demo_key = Ok p ∧ path_to_ids p = Ok demo_key) ∧
  (∃ k, path_to_ids "train/p1/s10/view1_frontal.jpg" = Ok k ∧
        ids_to_path k = Ok "train/p1/s10/view1_frontal.jpg").
Proof.
  assert (well_formed demo_key) as Hk by (split; reflexivity).
  assert (canonical_path "train/p1/s10/view1_frontal.jpg") as Hp.
  { exists "train", "1", "10", "1", "frontal".
    repeat split; try reflexivity; apply (bool_decide_unpack _); reflexivity. }
  split; [exact Hk|]. split; [exact Hp|].
  destruct codec_round_trip as [H1 H2].
  split; [exact (H1 demo_key Hk)|exact (H2 _ Hp)].
Defined.

(** A path with a leading zero is read, and is not what is rendered back. *)
Example path_with_leading_zero :
  (k ← path_to_ids "train/p01/s10/view1_frontal.jpg"; ids_to_path k)
  = Ok "train/p1/s10/view1_frontal.jpg".
Proof. vm_compute. reflexivity. Qed.

Example convert_examples :
  ChexpertConverter.convert "1.0" = Ok positive ∧
  ChexpertConverter.convert "1" =
    Raise (ValueError "unrecognized chexpert encoding: 1").
Proof. split; vm_compute; reflexivity. Qed.

Lemma parse_csv_row_ignores_view_witness :
  csv.next_reader "train/p1/s10/view1_frontal.jpg,frontal,1.0"
    = Ok ["train/p1/s10/view1_frontal.jpg"; "frontal"; "1.0"] ∧
  csv.next_reader "train/p1/s10/view1_frontal.jpg,lateral,1.0"
    = Ok ["train/p1/s10/view1_frontal.jpg"; "lateral"; "1.0"] ∧
  parse_csv_row "train/p1/s10/view1_frontal.jpg,frontal,1.0"
    = parse_csv_row "train/p1/s10/view1_frontal.jpg,lateral,1.0".
Proof.
  assert (csv.next_reader "train/p1/s10/view1_frontal.jpg,frontal,1.0"
    = Ok ["train/p1/s10/view1_frontal.jpg"; "frontal"; "1.0"]) as H1
    by (vm_compute; reflexivity).
  assert (csv.next_reader "train/p1/s10/view1_frontal.jpg,lateral,1.0"
    = Ok ["train/p1/s10/view1_frontal.jpg"; "lateral"; "1.0"]) as H2
    by (vm_compute; reflexivity).
  split; [exact H1|]. split; [exact H2|].
  exact (proj1 (parse_csv_row_ignores_view _ _ _ _ _ _ H1 H2)).
Defined.

Lemma parse_csv_row_no_count_check_witness :
  csv.next_reader "train/p1/s10/view1_frontal.jpg,frontal,1.0"
    = Ok ["train/p1/s10/view1_frontal.jpg"; "frontal"; "1.0"] ∧
  path_to_ids "train/p1/s10/view1_frontal.jpg" = Ok demo_key ∧
  parse_csv_row "train/p1/s10/view1_frontal.jpg,frontal,1.0"
    = Ok (demo_key, [positive]) ∧
  ∃ bq, to_bigquery_json (demo_key, [positive]) = Ok bq ∧
        bq !! "No Finding" = Some (BqLabel positive) ∧
        bq !! "Support Devices" = None.
Proof.
  assert (csv.next_reader "train/p1/s10/view1_frontal.jpg,frontal,1.0"
    = Ok ["train/p1/s10/view1_frontal.jpg"; "frontal"; "1.0"]) as H1
    by (vm_compute; reflexivity).
  assert (path_to_ids "train/p1/s10/view1_frontal.jpg" = Ok demo_key) as H2
    by (vm_compute; reflexivity).
  split; [exact H1|]. split; [exact H2|].
  destruct (parse_csv_row_no_count_check _ _ _ _ H1 eq_refl H2) as [_ H].
  destruct (H [positive] eq_refl) as (Hrow & _ & bq & Hbq & Hcols).
  split; [exact Hrow|]. exists bq. split; [exact Hbq|]. split.
  - exact (proj1 (Hcols 0%nat "No Finding" eq_refl)).
  - apply (proj2 (Hcols 13%nat "Support Devices" eq_refl)). cbn. lia.
Defined.

(** A line with no label field at all is accepted. *)
Example parse_csv_row_no_labels :
  parse_csv_row "train/p1/s10/view1_frontal.jpg" = Ok (demo_key, []).
Proof. vm_compute. reflexivity. Qed.

Example to_tf_example_single_pair_empty_image :
  to_tf_example (demo_key, mk_join [[]] [demo_labels])
  = Raise (RecordBuildError "empty image").
Proof. vm_compute. reflexivity. Qed.


Lemma to_tf_example_record_build_error_witness :
  ((@nil Byte.byte) = [] ∨ length demo_labels ≠ 14%nat) ∧
  ∃ msg, to_tf_example (demo_key, mk_join [[]] [demo_labels])
         = Raise (RecordBuildError msg).
Proof.
  split; [left; reflexivity|].
  exact (to_tf_example_record_build_error demo_key [] demo_labels
           (or_introl eq_refl)).
Defined.

Lemma partition_on_view_total_disjoint_witness :
  (∀ kv, kv ∈ CoGroupByKey demo_js demo_rs → well_formed kv.1) ∧
  ∃ parts,
    Partition partition_on_view (length VIEW_VALUES)
      (CoGroupByKey demo_js demo_rs) = Ok parts ∧
    length <$> parts = [1%nat; 1%nat; 2%nat] ∧
    concat parts ≡ₚ CoGroupByKey demo_js demo_rs.
Proof.
  assert (∀ kv, kv ∈ CoGroupByKey demo_js demo_rs → well_formed kv.1) as Hwf.
  { apply Forall_forall. apply (bool_decide_unpack _). vm_compute.
    reflexivity. }
  split; [exact Hwf|].
  destruct (partition_on_view_total_disjoint _ Hwf)
    as (parts & Hparts & _ & _ & _ & Hperm & _).
  exists parts. split; [exact Hparts|]. split; [|exact Hperm].
  vm_compute in Hparts. injection Hparts as <-. reflexivity.
Defined.

Lemma build_and_run_pipeline_input_check_witness :
  concat (glob demo_env <$> ["/nowhere/*.tar"]) = [] ∧
  build_and_run_pipeline demo_env ["/nowhere/*.tar"] "/in/labels.csv"
    None None None None
  = Raise (ValueError "No matching tar files were found.") ∧
  concat (glob demo_env <$> ["/in/*.tar"]) ≠ [] ∧
  build_and_run_pipeline demo_env ["/in/*.tar"] "/in/labels.csv"
    None None None None
  = run_pipeline demo_env ["/in/a.tar"] "/in/labels.csv" None None None None.
Proof.
  split; [reflexivity|]. split.
  - exact (proj1 (build_and_run_pipeline_input_check demo_env
             ["/nowhere/*.tar"] "/in/labels.csv" None None None None)
             eq_refl).
  - split; [discriminate|].
    apply (proj2 (build_and_run_pipeline_input_check demo_env
             ["/in/*.tar"] "/in/labels.csv" None None None None)).
    discriminate.
Defined.

Lemma tfrecords_only_frontal_lateral_witness :
  ∃ out exs_f exs_l,
    demo_run = Ok out ∧
    tfrecords out = [("/out/tf/frontal", exs_f); ("/out/tf/lateral", exs_l)] ∧
    length exs_f = 1%nat ∧ length exs_l = 1%nat ∧
    ("/out/jpg/train/p2/s11/view1_other.jpg", demo_jpg Byte.x03)
      ∈ jpg_files out.
Proof.
  destruct demo_run as [out|e] eqn:Hrun;
    [|vm_compute in Hrun; discriminate Hrun].
  destruct (tfrecords_only_frontal_lateral _ _ _ _ _ _ _ _ Hrun)
    as (rs & js & exs_f & exs_l & Hrs & Hjs & Hf & Hl & Htf & _ & Hjpg & _).
  exists out, exs_f, exs_l. split; [reflexivity|]. split; [exact Htf|].
  vm_compute in Hrs. injection Hrs as <-.
  vm_compute in Hjs. injection Hjs as <-.
  split; [|split].
  - vm_compute in Hf. by injection Hf as <-.
  - vm_compute in Hl. by injection Hl as <-.
  - destruct (Hjpg "/out/jpg" (mk_ids 0 2 11 1 2, demo_jpg Byte.x03) eq_refl)
      as (path & Hpath & Hin).
    + do 2 right. left.
    + vm_compute in Hpath. injection Hpath as <-. exact Hin.
Defined.

Lemma to_bigquery_json_rows_witness :
  well_formed demo_key ∧
  (∃ bq, to_bigquery_json (demo_key, demo_labels) = Ok bq ∧
         bq !! "path" = Some (BqStr "train/p1/s10/view1_frontal.jpg") ∧
         bq !! "patient" = Some (BqInt 1) ∧
         bq !! "Cardiomegaly" = Some (BqLabel uncertain)) ∧
  ∃ out table bqs,
    demo_run = Ok out ∧ bq_rows out = Some (table, bqs) ∧ length bqs = 4%nat.
Proof.
  assert (well_formed demo_key) as Hk by (split; reflexivity).
  destruct to_bigquery_json_rows as (Hrow & Hrun & _).
  split; [exact Hk|]. split.
  - destruct (Hrow demo_key demo_labels Hk)
      as (bq & path & Hbq & Hpath & Hp & Hids & Hlabels & _).
    exists bq. split; [exact Hbq|].
    vm_compute in Hpath. injection Hpath as <-. split; [exact Hp|]. split.
    + exact (Hids 1%nat "patient" eq_refl).
    + exact (Hlabels 2%nat "Cardiomegaly" eq_refl).
  - destruct demo_run as [out|e] eqn:Hdemo;
      [|vm_compute in Hdemo; discriminate Hdemo].
    destruct (Hrun _ _ _ _ _ _ _ _ Hdemo) as (rs & bqs & Hrs & _ & Hout & Hlen).
    exists out, "project:dataset.labels", bqs.
    split; [reflexivity|]. split; [exact Hout|].
    rewrite Hlen. vm_compute in Hrs. by injection Hrs as <-.
Defined.

(** The row of view 'other' that has no image raises nothing: its group is
    never handed to [to_tf_example]. *)
Example other_group_without_image :
  (mk_ids 1 3 12 1 2, mk_join [] [demo_labels])
    ∈ CoGroupByKey demo_js demo_rs ∧
  is_ok (to_tf_example (mk_ids 1 3 12 1 2, mk_join [] [demo_labels])) = false ∧
  is_ok demo_run = true.
Proof.
  split; [|split; vm_compute; reflexivity].
  vm_compute. do 3 right. left.
Qed.

(** * Further properties of the code *)

(** ** The CSV reader on plain fields *)

Lemma length_append (s r : string) :
  String.length (s ++ r) = (String.length s + String.length r)%nat.
Proof. induction s as [|c s IH]; [done|]. rewrite append_cons. cbn. by rewrite IH. Qed.

Lemma append_assoc (s r t : string) : (s ++ r) ++ t = s ++ r ++ t.
Proof.
  induction s as [|c s IH]; [done|]. rewrite !append_cons. by rewrite IH.
Qed.

Lemma append_empty_r (s : string) : s ++ EmptyString = s.
Proof. induction s as [|c s IH]; [done|]. rewrite append_cons. by rewrite IH. Qed.

Lemma is_plain_inv (c : ascii) :
  is_plain c = true →
  Ascii.eqb c csv.delimiter = false ∧ Ascii.eqb c csv.quotechar = false ∧
  csv.is_newline c = false ∧ Ascii.eqb c csv.NUL = false.
Proof.
  unfold is_plain. intros H%negb_true_iff.
  apply orb_false_iff in H as [H H4]. apply orb_false_iff in H as [H H3].
  apply orb_false_iff in H as [H1 H2]. done.
Qed.

(** In a field or at its start, a plain character is appended to the field. *)
Lemma parse_process_char_plain (d : list string) (cur : string)
    (st : csv.ParserState) (c : ascii) :
  st = csv.START_FIELD ∨ st = csv.IN_FIELD →
  is_plain c = true →
  N.of_nat (String.length cur) < csv.field_limit →
  csv.parse_process_char (csv.mk_reader d cur st) (csv.Char c)
  = Ok (csv.mk_reader d (cur ++ String c EmptyString) csv.IN_FIELD).
Proof.
  intros Hst (Hd & Hq & Hn & _)%is_plain_inv Hlen.
  assert (csv.parse_add_char (csv.mk_reader d cur st) c
          = Ok (csv.mk_reader d (cur ++ String c EmptyString) st)) as Hadd.
  { unfold csv.parse_add_char. cbn [csv.field csv.fields csv.state].
    by apply N.leb_gt in Hlen as ->. }
  destruct Hst as [-> | ->]; unfold csv.parse_process_char;
    cbn [csv.state]; unfold csv.start_field; rewrite Hn, ?Hq, Hd, Hadd; done.
Qed.

Lemma process_line_plain (d : list string) (cur f rest : string)
    (st : csv.ParserState) :
  st = csv.START_FIELD ∨ st = csv.IN_FIELD →
  all_chars is_plain f = true →
  N.of_nat (String.length cur + String.length f) ≤ csv.field_limit →
  ∃ st', (st' = csv.START_FIELD ∨ st' = csv.IN_FIELD) ∧
    csv.process_line (csv.mk_reader d cur st) (f ++ rest)
    = csv.process_line (csv.mk_reader d (cur ++ f) st') rest.
Proof.
  revert cur st. induction f as [|c f IH]; intros cur st Hst Hf Hlen.
  - exists st. by rewrite append_empty, append_empty_r.
  - cbn [all_chars] in Hf. apply andb_prop in Hf as [Hc Hf].
    cbn [String.length] in Hlen.
    destruct (IH (cur ++ String c EmptyString) csv.IN_FIELD) as (st' & Hst' & HIH).
    { by right. } { done. }
    { rewrite length_append. cbn [String.length]. lia. }
    exists st'. split; [done|]. rewrite append_cons. cbn [csv.process_line].
    destruct (is_plain_inv _ Hc) as (_ & _ & _ & ->).
    rewrite parse_process_char_plain by (done || lia).
    cbn [mbind result_bind]. rewrite HIH, append_assoc. by rewrite append_cons.
Qed.

Lemma process_line_end (d : list string) (cur : string)
    (st : csv.ParserState) :
  st = csv.START_FIELD ∨ st = csv.IN_FIELD →
  csv.process_line (csv.mk_reader d cur st) EmptyString
  = Ok (csv.mk_reader (d ++ [cur]) EmptyString csv.START_RECORD).
Proof. by intros [-> | ->]. Qed.

Lemma process_line_comma (d : list string) (cur rest : string)
    (st : csv.ParserState) :
  st = csv.START_FIELD ∨ st = csv.IN_FIELD →
  csv.process_line (csv.mk_reader d cur st) ("," ++ rest)
  = csv.process_line (csv.mk_reader (d ++ [cur]) EmptyString csv.START_FIELD)
      rest.
Proof. by intros [-> | ->]. Qed.

Lemma process_line_fields (d : list string) (f : string) (fs : list string) :
  Forall plain_field (f :: fs) →
  csv.process_line (csv.mk_reader d EmptyString csv.START_FIELD)
    (join_comma (f :: fs))
  = Ok (csv.mk_reader (d ++ f :: fs) EmptyString csv.START_RECORD).
Proof.
  revert d f. induction fs as [|g fs IH]; intros d f Hall;
    apply Forall_cons in Hall as [[Hf Hlen] Hfs].
  - cbn [join_comma]. rewrite <- (append_empty_r f) at 1.
    destruct (process_line_plain d EmptyString f EmptyString csv.START_FIELD)
      as (st' & Hst' & ->); [by left|done|done|].
    rewrite append_empty. by apply process_line_end.
  - change (join_comma (f :: g :: fs)) with (f ++ "," ++ join_comma (g :: fs)).
    destruct (process_line_plain d EmptyString f ("," ++ join_comma (g :: fs))
                csv.START_FIELD) as (st' & Hst' & ->); [by left|done|done|].
    rewrite append_empty, process_line_comma by done.
    rewrite IH by done. by rewrite <- app_assoc.
Qed.

(** The first character of a record that is no newline starts a field. *)
Lemma process_line_start (c : ascii) (line : string) :
  csv.is_newline c = false →
  csv.process_line csv.parse_reset (String c line)
  = csv.process_line (csv.mk_reader [] EmptyString csv.START_FIELD)
      (String c line).
Proof.
  intros Hc. cbn [csv.process_line]. destruct (Ascii.eqb c csv.NUL); [done|].
  unfold csv.parse_process_char, csv.parse_reset. cbn [csv.state].
  by rewrite Hc.
Qed.

(** The reader splits a line of plain fields at its commas. *)
Lemma next_reader_join_comma (f g : string) (fs : list string) :
  Forall plain_field (f :: g :: fs) →
  csv.next_reader (join_comma (f :: g :: fs)) = Ok (f :: g :: fs).
Proof.
  intros Hall. unfold csv.next_reader.
  assert (csv.process_line csv.parse_reset (join_comma (f :: g :: fs))
          = Ok (csv.mk_reader (f :: g :: fs) EmptyString csv.START_RECORD))
    as ->; [|done].
  pose proof (process_line_fields [] f (g :: fs) Hall) as Hfields.
  cbn [app] in Hfields. rewrite <- Hfields. clear Hfields.
  change (join_comma (f :: g :: fs)) with (f ++ "," ++ join_comma (g :: fs)).
  destruct f as [|c f].
  - rewrite append_empty. by apply process_line_start.
  - rewrite append_cons. apply process_line_start.
    apply Forall_cons in Hall as [[Hf _] _]. cbn [all_chars] in Hf.
    apply andb_prop in Hf as [Hc _]. by destruct (is_plain_inv _ Hc) as (_&_&?&_).
Qed.

(** X1. A label line that joins plain fields with commas is read as these
    fields: the key comes from the first one and the label codes from the
    third one onwards, one by one. *)
Theorem parse_csv_row_join_comma (p v : string) (labels : list string) :
  Forall plain_field (p :: v :: labels) →
  parse_csv_row (join_comma (p :: v :: labels))
  = (ids ← path_to_ids p;
     codes ← mapM ChexpertConverter.convert labels;
     Ok (ids, codes)).
Proof.
  intros Hall. unfold parse_csv_row.
  by rewrite (next_reader_join_comma _ _ _ Hall).
Qed.

(** ** Errors of the label parser *)

Lemma convert_accepts (s : string) :
  s ∈ chexpert_encodings → is_ok (ChexpertConverter.convert s) = true.
Proof.
  unfold chexpert_encodings. intros Hin.
  repeat (apply elem_of_cons in Hin as [->|Hin]; [reflexivity|]).
  by apply elem_of_nil in Hin.
Qed.

Lemma convert_rejects (s : string) :
  s ∉ chexpert_encodings →
  ChexpertConverter.convert s
  = Raise (ValueError ("unrecognized chexpert encoding: " ++ s)).
Proof.
  unfold chexpert_encodings. intros Hs.
  unfold ChexpertConverter.convert, ChexpertConverter.chexpert_code_to_index.
  rewrite !lookup_insert_ne, lookup_empty; [done|intros <-; apply Hs..].
  - by left.
  - right. by left.
  - do 2 right. by left.
  - do 3 right. by left.
Qed.

(** A list comprehension raises what its first failing element raises. *)
Lemma mapM_first_raise {A B} (f : A → result B) (good rest : list A)
    (bad : A) (e : exn) :
  Forall (λ x, is_ok (f x) = true) good → f bad = Raise e →
  mapM f (good ++ bad :: rest) = Raise e.
Proof.
  intros Hgood Hbad. induction Hgood as [|x good Hx _ IH]; cbn [app mapM].
  - by rewrite Hbad.
  - destruct (f x); [|done]. cbn [mbind result_bind]. by rewrite IH.
Qed.

(** X2. The path field is read first, so what it raises is what the parser
    raises, whatever the label fields hold; with a path that reads as a key,
    the parser raises the [ValueError] that names the first label field which
    is none of the four encodings. *)
Theorem parse_csv_row_first_error (line p : string) (row : list string) :
  csv.next_reader line = Ok row → row !! 0%nat = Some p →
  (∀ e, path_to_ids p = Raise e → parse_csv_row line = Raise e) ∧
  (∀ ids good bad rest,
     path_to_ids p = Ok ids → drop 2 row = (good ++ bad :: rest)%list →
     Forall (λ s, s ∈ chexpert_encodings) good → bad ∉ chexpert_encodings →
     parse_csv_row line
     = Raise (ValueError ("unrecognized chexpert encoding: " ++ bad))).
Proof.
  intros Hrow Hp. rewrite (parse_csv_row_of_row _ _ Hrow), Hp.
  cbn [opt_or_raise mbind result_bind]. split.
  - intros e ->. done.
  - intros ids good bad rest -> -> Hgood Hbad. cbn [mbind result_bind].
    rewrite (mapM_first_raise _ _ _ _
               (ValueError ("unrecognized chexpert encoding: " ++ bad))); [done| |].
    + eapply Forall_impl; [exact Hgood|]. intros s. apply convert_accepts.
    + by apply convert_rejects.
Qed.

Lemma is_newline_not_NUL (c : ascii) :
  csv.is_newline c = true → Ascii.eqb c csv.NUL = false.
Proof.
  unfold csv.is_newline. intros [H|H]%orb_prop;
    apply Ascii.eqb_eq in H as ->; reflexivity.
Qed.

Lemma process_line_newlines (line : string) :
  all_chars csv.is_newline line = true →
  csv.process_line (csv.mk_reader [] EmptyString csv.EAT_CRNL) line
  = Ok (csv.mk_reader [] EmptyString csv.START_RECORD).
Proof.
  induction line as [|c line IH]; [done|]. cbn [all_chars].
  intros [Hc Hline]%andb_prop. cbn [csv.process_line].
  rewrite (is_newline_not_NUL _ Hc). unfold csv.parse_process_char.
  cbn [csv.state]. rewrite Hc. cbn [mbind result_bind]. by apply IH.
Qed.

(** X3. A line that is empty or holds only carriage returns and line feeds
    is read as an empty row, on which taking the path field raises an
    [IndexError]. *)
Theorem parse_csv_row_blank_line (line : string) :
  all_chars csv.is_newline line = true →
  csv.next_reader line = Ok [] ∧
  parse_csv_row line = Raise (IndexError "list index out of range").
Proof.
  intros Hline.
  assert (csv.next_reader line = Ok []) as Hrow.
  { unfold csv.next_reader. destruct line as [|c line]; [done|].
    cbn [all_chars] in Hline. apply andb_prop in Hline as [Hc Hline].
    cbn [csv.process_line]. rewrite (is_newline_not_NUL _ Hc).
    unfold csv.parse_process_char at 1, csv.parse_reset. cbn [csv.state].
    rewrite Hc. cbn [mbind result_bind].
    change (csv.set_state csv.EAT_CRNL (csv.mk_reader [] EmptyString csv.START_RECORD))
      with (csv.mk_reader [] EmptyString csv.EAT_CRNL).
    by rewrite process_line_newlines. }
  split; [done|]. unfold parse_csv_row. by rewrite Hrow.
Qed.

(** ** The size and the content of a BigQuery row *)

Section zip_dict_size.
Context {V : Type}.
Implicit Types (ks : list string) (vs : list V).

Lemma zip_fst_take ks vs : (zip ks vs).*1 = take (length vs) ks.
Proof.
  revert vs. induction ks as [|k ks IH]; intros [|v vs]; cbn; try done.
  by rewrite <- IH.
Qed.

Lemma NoDup_take_string ks (n : nat) : NoDup ks → NoDup (take n ks).
Proof.
  intros Hnd. revert n. induction Hnd as [|k ks Hk _ IH]; intros [|n]; cbn;
    try constructor; [|done].
  intros Hin. apply Hk. apply elem_of_take in Hin as (i & Hi & _).
  by eapply list_elem_of_lookup_2.
Qed.

Lemma zip_dict_size ks vs :
  NoDup ks → size (dict_of_pairs (zip ks vs)) = (length ks `min` length vs)%nat.
Proof.
  intros Hnd. rewrite dict_of_pairs_list_to_map, map_size_list_to_map.
  - rewrite length_reverse. apply length_zip_with.
  - rewrite fmap_reverse, reverse_Permutation, zip_fst_take.
    by apply NoDup_take_string.
Qed.

Lemma zip_dict_lookup_Some ks vs (k : string) (v : V) :
  dict_of_pairs (zip ks vs) !! k = Some v → k ∈ ks.
Proof.
  intros Hk. destruct (decide (k ∈ ks)) as [|Hn]; [done|].
  by rewrite zip_dict_lookup_None in Hk.
Qed.

End zip_dict_size.

Lemma name_of_Some_member (d : list (string * N)) (v : N) (name : string) :
  name_of d v = Some name → v ∈ d.*2.
Proof.
  induction d as [|[n w] d IH]; [done|]. cbn [name_of].
  destruct (N.eqb_spec w v) as [->|_].
  - intros _. by left.
  - intros ?. right. by apply IH.
Qed.

(** Only a well-formed key has a path. *)
Lemma ids_to_path_Ok_well_formed (k : Ids) (p : string) :
  ids_to_path k = Ok p → well_formed k.
Proof.
  unfold ids_to_path. intros (ds & Hds & (vw & Hvw & _)%bind_Ok)%bind_Ok.
  destruct (name_of DATASET_VALUES (dataset k)) eqn:Ed; [|done].
  destruct (name_of VIEW_VALUES (view k)) eqn:Ev; [|done].
  apply name_of_Some_member in Ed, Ev. split; cbn in Ed, Ev |- *.
  - repeat (apply elem_of_cons in Ed as [->|Ed]; [lia|]).
    by apply elem_of_nil in Ed.
  - repeat (apply elem_of_cons in Ev as [->|Ev]; [lia|]).
    by apply elem_of_nil in Ev.
Qed.

Lemma to_bigquery_json_Ok_well_formed (ids : Ids) (row : list LabelCode)
    (bq : gmap string bq_value) :
  to_bigquery_json (ids, row) = Ok bq → well_formed ids.
Proof.
  unfold to_bigquery_json. intros (p & Hp & _)%bind_Ok.
  by eapply ids_to_path_Ok_well_formed.
Qed.

Lemma Ok_inj {A} (a b : A) : Ok a = Ok b → a = b.
Proof. congruence. Qed.

(** X4. Label codes beyond the fourteenth never reach the row: the row of a
    label record is that of the record cut to fourteen codes, and it has six
    fields for the key and the path and one for each of the codes kept. *)
Theorem to_bigquery_json_truncates (ids : Ids) (row : list LabelCode) :
  to_bigquery_json (ids, row) = to_bigquery_json (ids, take 14 row) ∧
  ∀ bq, to_bigquery_json (ids, row) = Ok bq →
        size bq = (6 + length row `min` 14)%nat.
Proof.
  split.
  - unfold to_bigquery_json. rewrite fmap_take.
    assert (zip LABEL_NAMES (take 14 (BqLabel <$> row))
            = zip LABEL_NAMES (BqLabel <$> row)) as ->; [|done].
    apply (zip_with_take_r pair LABEL_NAMES).
  - unfold to_bigquery_json. intros bq (p & _ & Hbq)%bind_Ok.
    apply Ok_inj in Hbq as <-. unfold dict_update.
    assert (∀ name : string, name ∈ LABEL_NAMES →
              (name ∉ ID_NAMES.*1) ∧ name ≠ "path") as Hfresh.
    { apply Forall_forall, label_names_fresh. }
    assert (∀ name : string, name ∈ ID_NAMES.*1 → name ≠ "path") as Hfresh'.
    { apply Forall_forall, id_names_fresh. }
    rewrite map_size_insert_None, map_size_disj_union.
    + rewrite !zip_dict_size by (apply id_names_NoDup || apply label_names_NoDup).
      rewrite !length_fmap. cbn [ID_NAMES LABEL_NAMES ids_tuple length]. lia.
    + apply map_disjoint_spec. intros name x y Hx%zip_dict_lookup_Some
        Hy%zip_dict_lookup_Some. by destruct (Hfresh _ Hy).
    + apply lookup_union_None. split; apply zip_dict_lookup_None.
      * intros Hin. by apply (Hfresh' _ Hin).
      * intros Hin. by destruct (Hfresh _ Hin).
Qed.

(** X5. The row keeps the whole record: two label records of at most
    fourteen codes that have the same row are the same record. *)
Theorem to_bigquery_json_injective (ids ids' : Ids) (row row' : list LabelCode)
    (bq : gmap string bq_value) :
  (length row ≤ 14)%nat → (length row' ≤ 14)%nat →
  to_bigquery_json (ids, row) = Ok bq → to_bigquery_json (ids', row') = Ok bq →
  ids = ids' ∧ row = row'.
Proof.
  intros Hlen Hlen' H H'.
  destruct (to_bigquery_json_fields ids row)
    as (bq1 & p & Hbq1 & _ & _ & Hids & Hlab & _);
    [by eapply to_bigquery_json_Ok_well_formed|].
  destruct (to_bigquery_json_fields ids' row')
    as (bq2 & p' & Hbq2 & _ & _ & Hids' & Hlab' & _);
    [by eapply to_bigquery_json_Ok_well_formed|].
  rewrite H in Hbq1. injection Hbq1 as <-.
  rewrite H' in Hbq2. injection Hbq2 as <-. split.
  - assert (∀ i : nat, ids_tuple ids !! i = ids_tuple ids' !! i) as Ht.
    { intros i. destruct (ID_NAMES.*1 !! i) as [name|] eqn:Hi.
      - pose proof (Hids _ _ Hi) as H1. rewrite (Hids' _ _ Hi) in H1.
        destruct (ids_tuple ids !! i), (ids_tuple ids' !! i); cbn in H1;
          congruence.
      - apply lookup_ge_None in Hi. rewrite length_fmap in Hi. cbn in Hi.
        rewrite !lookup_ge_None_2; [done|cbn; lia..]. }
    destruct ids, ids'. cbn [ids_tuple dataset patient study image view] in Ht.
    pose proof (Ht 0%nat) as H0. pose proof (Ht 1%nat) as H1.
    pose proof (Ht 2%nat) as H2. pose proof (Ht 3%nat) as H3.
    pose proof (Ht 4%nat) as H4. cbn in H0, H1, H2, H3, H4. congruence.
  - apply list_eq. intros i.
    destruct (LABEL_NAMES !! i) as [name|] eqn:Hi.
    + pose proof (Hlab _ _ Hi) as H1. rewrite (Hlab' _ _ Hi) in H1.
      destruct (row !! i), (row' !! i); cbn in H1; congruence.
    + apply lookup_ge_None in Hi. cbn in Hi.
      rewrite !lookup_ge_None_2; [done|lia..].
Qed.

(** ** The output directories *)

Lemma endswith_slash_append (dir : string) : endswith_slash (dir ++ "/") = true.
Proof.
  induction dir as [|c dir IH]; [done|]. rewrite append_cons.
  cbn [endswith_slash]. destruct (dir ++ "/") eqn:E; [|done].
  by destruct dir.
Qed.

Lemma with_slash_idemp (dir : string) : with_slash (with_slash dir) = with_slash dir.
Proof.
  unfold with_slash. destruct (endswith_slash dir) eqn:E.
  - by rewrite E.
  - by rewrite endswith_slash_append.
Qed.

(** X6. For a JPG directory and a TFRecord directory that do not end in a
    slash, the run is the same with each directory as it is and with that
    directory followed by one slash. *)
Theorem build_and_run_pipeline_trailing_slash (env : Env)
    (input_tars : list string) (input_csv : string) (jd bq td : option string)
    (shape : option (list N)) :
  (∀ dir, jd = Some dir → endswith_slash dir = false) →
  (∀ dir, td = Some dir → endswith_slash dir = false) →
  build_and_run_pipeline env input_tars input_csv ((λ dir, dir ++ "/") <$> jd)
    bq ((λ dir, dir ++ "/") <$> td) shape
  = build_and_run_pipeline env input_tars input_csv jd bq td shape.
Proof.
  intros Hj Ht. unfold build_and_run_pipeline, run_pipeline.
  destruct jd as [jdir|], td as [tdir|]; cbn [fmap option_fmap option_map];
    unfold with_slash; rewrite ?endswith_slash_append;
    rewrite ?(Hj _ eq_refl), ?(Ht _ eq_refl); reflexivity.
Qed.

(** ** When a run completes *)

Lemma mapM_Ok_all {A B} (f : A → result B) (l : list A) :
  (∀ x, x ∈ l → is_ok (f x) = true) → ∃ ys, mapM f l = Ok ys.
Proof.
  induction l as [|x l IH]; intros Hl; cbn [mapM]; [by eexists|].
  destruct (f x) as [y|] eqn:Hx.
  - destruct IH as [ys ->]; [intros; apply Hl; by right|].
    by eexists.
  - specialize (Hl x (list_elem_of_here _ _)). by rewrite Hx in Hl.
Qed.

Lemma is_ok_true {A} (r : result A) : is_ok r = true ↔ ∃ a, r = Ok a.
Proof.
  destruct r as [a|e]; split; try done.
  - intros _. by exists a.
  - by intros [? [=]].
Qed.

(** X7. A label line after the header on which the parser raises makes the
    run fail, whichever outputs are asked for, none included. *)
Theorem label_line_error_fails_run (env : Env) (input_tars : list string)
    (input_csv : string) (jd bq td : option string) (shape : option (list N))
    (line : string) :
  line ∈ drop 1 (read_lines env input_csv) →
  is_ok (parse_csv_row line) = false →
  is_ok (build_and_run_pipeline env input_tars input_csv jd bq td shape)
  = false.
Proof.
  intros Hin Hline.
  destruct (build_and_run_pipeline env input_tars input_csv jd bq td shape)
    as [out|e] eqn:Hrun; [|done].
  apply build_and_run_pipeline_Ok, run_pipeline_Ok in Hrun as (rs & Hrs & _).
  destruct (mapM_Ok_elem_of_2 _ _ _ _ Hrs Hin) as (r & Hr & _).
  by rewrite Hr in Hline.
Qed.

Lemma to_tf_example_Ok_counts (ids : Ids) (join : Join) (ex : Example) :
  to_tf_example (ids, join) = Ok ex →
  length (jpgs join) = 1%nat ∧ length (rows join) = 1%nat.
Proof.
  unfold to_tf_example.
  destruct (Nat.eqb_spec (length (jpgs join)) 1) as [H1|H1];
    destruct (Nat.eqb_spec (length (rows join)) 1) as [H2|H2];
    cbn [negb orb]; [done|..]; by intros (? & _ & [=])%bind_Ok.
Qed.

Lemma CoGroupByKey_group (js : list (Ids * bytes))
    (rs : list (Ids * list LabelCode)) (k : Ids) :
  k ∈ js.*1 ∨ k ∈ rs.*1 →
  (k, mk_join (filter (λ e, e.1 = k) js).*2 (filter (λ e, e.1 = k) rs).*2)
    ∈ CoGroupByKey js rs.
Proof.
  intros Hk. unfold CoGroupByKey. apply list_elem_of_fmap. exists k.
  split; [done|]. rewrite elem_of_remove_dups. by apply elem_of_app.
Qed.

(** X8. In a completed run that writes TFRecords every frontal or lateral
    key that occurs among the image records or the label records has exactly
    one image record and exactly one label row; and each of the two files
    holds one record for each key of its view. *)
Theorem completed_run_joins_one_to_one (env : Env) (input_tars : list string)
    (input_csv : string) (jd bq : option string) (dir : string)
    (shape : option (list N)) (out : Outputs) :
  build_and_run_pipeline env input_tars input_csv jd bq (Some dir) shape
    = Ok out →
  ∃ rs js,
    label_rows env input_csv = Ok rs ∧
    image_records env (concat (glob env <$> input_tars)) shape = Ok js ∧
    (∀ k, view k ≠ 2 → k ∈ js.*1 ∨ k ∈ rs.*1 →
       length (filter (λ e, e.1 = k) js) = 1%nat ∧
       length (filter (λ e, e.1 = k) rs) = 1%nat) ∧
    (length <$> (tfrecords out).*2)
    = [length (filter (λ kv, view kv.1 = 0) (CoGroupByKey js rs));
       length (filter (λ kv, view kv.1 = 1) (CoGroupByKey js rs))].
Proof.
  intros (rs & Hrs & _ & Hj)%build_and_run_pipeline_Ok%run_pipeline_Ok.
  assert (∃ js,
    image_records env (concat (glob env <$> input_tars)) shape = Ok js ∧
    ∃ exs_f exs_l,
      mapM to_tf_example (filter (λ kv, view kv.1 = 0) (CoGroupByKey js rs))
        = Ok exs_f ∧
      mapM to_tf_example (filter (λ kv, view kv.1 = 1) (CoGroupByKey js rs))
        = Ok exs_l ∧
      tfrecords out = [(with_slash dir ++ "frontal", exs_f);
                       (with_slash dir ++ "lateral", exs_l)])
    as (js & Hjs & exs_f & exs_l & Hf & Hl & Htf).
  { destruct jd; destruct Hj as (js & ? & _ & ?); by exists js. }
  clear Hj. exists rs, js. repeat (split; [done|]). split.
  - intros k Hview Hk.
    pose proof (CoGroupByKey_group js rs k Hk) as Hin.
    assert (well_formed k) as [_ Hv].
    { by apply (CoGroupByKey_well_formed _ _ _ _ _ _ Hrs Hjs _ Hin). }
    cbn in Hv.
    assert (∃ ex, to_tf_example
              (k, mk_join (filter (λ e, e.1 = k) js).*2
                          (filter (λ e, e.1 = k) rs).*2) = Ok ex) as [ex Hex].
    { assert (view k = 0 ∨ view k = 1) as [H0|H1] by lia.
      - destruct (mapM_Ok_elem_of_2 _ _ _ _ Hf
                    (proj2 (list_elem_of_filter _ _ _) (conj H0 Hin)))
          as (ex & ? & _). by exists ex.
      - destruct (mapM_Ok_elem_of_2 _ _ _ _ Hl
                    (proj2 (list_elem_of_filter _ _ _) (conj H1 Hin)))
          as (ex & ? & _). by exists ex. }
    apply to_tf_example_Ok_counts in Hex. cbn [jpgs rows] in Hex.
    by rewrite !length_fmap in Hex.
  - rewrite Htf. cbn [fmap list_fmap snd].
    by rewrite (mapM_Ok_length _ _ _ Hf), (mapM_Ok_length _ _ _ Hl).
Qed.

Lemma to_bigquery_json_all_Ok (env : Env) (input_csv : string)
    (rs : list (Ids * list LabelCode)) :
  label_rows env input_csv = Ok rs → ∃ bqs, mapM to_bigquery_json rs = Ok bqs.
Proof.
  intros Hrs. apply mapM_Ok_all. intros [ids row] Hin.
  destruct (to_bigquery_json_fields ids row) as (bq & _ & -> & _); [|done].
  exact (label_rows_well_formed _ _ _ Hrs _ Hin).
Qed.

Lemma write_jpg_all_Ok (env : Env) (input_paths : list string)
    (shape : option (list N)) (js : list (Ids * bytes)) (dir : string) :
  image_records env input_paths shape = Ok js →
  ∃ files, mapM (λ e, write_jpg e dir) js = Ok files.
Proof.
  intros Hjs. apply mapM_Ok_all. intros [ids b] Hin. unfold write_jpg.
  destruct (ids_to_path_well_formed ids) as [p ->]; [|done].
  exact (image_records_well_formed _ _ _ _ Hjs _ Hin).
Qed.

(** X9. Without a TFRecord directory the run completes exactly when some
    tar file matches, every label line parses and, if a JPG directory is
    given, the image records can be read: the groups of the join are never
    looked at, so keys without a partner or with several raise nothing. *)
Theorem run_without_tfrecords_completes (env : Env) (input_tars : list string)
    (input_csv : string) (jd bq : option string) (shape : option (list N)) :
  is_ok (build_and_run_pipeline env input_tars input_csv jd bq None shape)
    = true
  ↔ concat (glob env <$> input_tars) ≠ [] ∧
    is_ok (label_rows env input_csv) = true ∧
    match jd with
    | Some _ =>
        is_ok (image_records env (concat (glob env <$> input_tars)) shape)
        = true
    | None => True
    end.
Proof.
  split.
  - intros [out Hrun]%is_ok_true. split.
    { unfold build_and_run_pipeline in Hrun.
      by destruct (decide (concat (glob env <$> input_tars) = [])). }
    apply build_and_run_pipeline_Ok, run_pipeline_Ok in Hrun
      as (rs & Hrs & _ & Hj).
    split; [by rewrite Hrs|]. destruct jd as [dir|]; [|done].
    destruct Hj as (js & -> & _). done.
  - intros (Hglob & [rs Hrs]%is_ok_true & Himg).
    unfold build_and_run_pipeline.
    destruct (decide (concat (glob env <$> input_tars) = [])); [done|].
    unfold run_pipeline. fold (label_rows env input_csv). rewrite Hrs.
    cbn [mbind result_bind].
    destruct (to_bigquery_json_all_Ok _ _ _ Hrs) as [bqs Hbqs].
    assert (∃ bqv, match bq with
                   | Some table =>
                       r ← mapM to_bigquery_json rs; Ok (Some (table, r))
                   | None => Ok None
                   end = Ok bqv) as [bqv ->].
    { destruct bq; [rewrite Hbqs|]; by eexists. }
    cbn [mbind result_bind]. destruct jd as [dir|]; [|done].
    apply is_ok_true in Himg as [js Hjs].
    pose proof Hjs as Hjs'. unfold image_records in Hjs'.
    apply bind_Ok in Hjs' as (js0 & -> & Hres). cbn [mbind result_bind].
    rewrite Hres. cbn [mbind result_bind].
    destruct (write_jpg_all_Ok _ _ _ _ (with_slash dir) Hjs) as [files ->].
    cbn [mbind result_bind].
    rewrite Partition_on_view_parts by (by eapply CoGroupByKey_well_formed).
    done.
Qed.

(** ** The JPG files *)

Lemma ids_to_path_inj (k1 k2 : Ids) (p : string) :
  ids_to_path k1 = Ok p → ids_to_path k2 = Ok p → k1 = k2.
Proof.
  intros H1 H2.
  destruct (path_to_ids_ids_to_path k1) as (p1 & Hp1 & Hr1);
    [by eapply ids_to_path_Ok_well_formed|].
  destruct (path_to_ids_ids_to_path k2) as (p2 & Hp2 & Hr2);
    [by eapply ids_to_path_Ok_well_formed|].
  congruence.
Qed.

(** X10. [write_jpg] writes the bytes it is given, unchanged, to the file
    whose path is the directory followed by the path of the key, and two image
    records written under the same directory go to the same file only when
    they have the same key. *)
Theorem write_jpg_no_collision (k1 k2 : Ids) (b1 b2 c1 c2 : bytes)
    (dir f1 f2 : string) :
  write_jpg (k1, b1) dir = Ok (f1, c1) →
  write_jpg (k2, b2) dir = Ok (f2, c2) →
  (∃ p1, ids_to_path k1 = Ok p1 ∧ f1 = dir ++ p1) ∧ c1 = b1 ∧
  (∃ p2, ids_to_path k2 = Ok p2 ∧ f2 = dir ++ p2) ∧ c2 = b2 ∧
  (f1 = f2 → k1 = k2).
Proof.
  unfold write_jpg. intros (p1 & Hp1 & [= <- <-])%bind_Ok
    (p2 & Hp2 & [= <- <-])%bind_Ok.
  split; [by exists p1|]. split; [done|]. split; [by exists p2|].
  split; [done|]. intros Heq%(inj (String.app dir)). subst.
  by eapply ids_to_path_inj.
Qed.

(** ** Inputs that a run does not read *)

(** X11. With neither a JPG nor a TFRecord directory the run reads no tar
    file and resizes nothing, and without an image shape it resizes nothing:
    replacing these parts of the environment leaves the result as it is. *)
Theorem unused_inputs (env : Env) (input_tars : list string)
    (input_csv : string) (jd bq td : option string) (shape : option (list N))
    (read_tar' : string → list (string * bytes))
    (resize' : list N → bytes → result bytes) :
  build_and_run_pipeline
    (mk_env (glob env) (read_lines env) read_tar' resize')
    input_tars input_csv None bq None shape
  = build_and_run_pipeline env input_tars input_csv None bq None shape ∧
  build_and_run_pipeline
    (mk_env (glob env) (read_lines env) (read_tar env) resize')
    input_tars input_csv jd bq td None
  = build_and_run_pipeline env input_tars input_csv jd bq td None.
Proof. split; reflexivity. Qed.

(** ** The further properties on the small dataset *)

Lemma parse_csv_row_join_comma_witness :
  Forall plain_field ["train/p1/s10/view1_frontal.jpg"; "frontal"; "1.0";
                      EmptyString] ∧
  parse_csv_row (join_comma ["train/p1/s10/view1_frontal.jpg"; "frontal";
                             "1.0"; EmptyString])
  = Ok (demo_key, [positive; not_mentioned]).
Proof.
  assert (Forall plain_field ["train/p1/s10/view1_frontal.jpg"; "frontal";
                              "1.0"; EmptyString]) as Hall.
  { repeat constructor; vm_compute; discriminate. }
  split; [exact Hall|].
  rewrite (parse_csv_row_join_comma _ _ _ Hall). vm_compute. reflexivity.
Defined.

Lemma parse_csv_row_first_error_witness :
  csv.next_reader "train/p1/s10/view1_frontal.jpg,frontal,1.0,2.0,3.0"
    = Ok ["train/p1/s10/view1_frontal.jpg"; "frontal"; "1.0"; "2.0"; "3.0"] ∧
  parse_csv_row "train/p1/s10/view1_frontal.jpg,frontal,1.0,2.0,3.0"
    = Raise (ValueError "unrecognized chexpert encoding: 2.0") ∧
  parse_csv_row "test/p1/s10/view1_frontal.jpg,frontal,2.0"
    = Raise (MalformedPathError "test/p1/s10/view1_frontal.jpg").
Proof.
  assert (csv.next_reader "train/p1/s10/view1_frontal.jpg,frontal,1.0,2.0,3.0"
    = Ok ["train/p1/s10/view1_frontal.jpg"; "frontal"; "1.0"; "2.0"; "3.0"])
    as H1 by (vm_compute; reflexivity).
  assert (csv.next_reader "test/p1/s10/view1_frontal.jpg,frontal,2.0"
    = Ok ["test/p1/s10/view1_frontal.jpg"; "frontal"; "2.0"])
    as H2 by (vm_compute; reflexivity).
  split; [exact H1|]. split.
  - apply (proj2 (parse_csv_row_first_error _ _ _ H1 eq_refl)
             demo_key ["1.0"] "2.0" ["3.0"]).
    + vm_compute. reflexivity.
    + reflexivity.
    + apply (bool_decide_unpack _). reflexivity.
    + apply (bool_decide_unpack _). reflexivity.
  - apply (proj1 (parse_csv_row_first_error _ _ _ H2 eq_refl)).
    vm_compute. reflexivity.
Defined.

Lemma parse_csv_row_blank_line_witness :
  all_chars csv.is_newline EmptyString = true ∧
  parse_csv_row EmptyString = Raise (IndexError "list index out of range").
Proof.
  split; [reflexivity|].
  exact (proj2 (parse_csv_row_blank_line EmptyString eq_refl)).
Defined.

Lemma to_bigquery_json_truncates_witness :
  ∃ bq, to_bigquery_json (demo_key, replicate 16 positive) = Ok bq ∧
        size bq = 20%nat.
Proof.
  destruct (to_bigquery_json (demo_key, replicate 16 positive)) as [bq|e]
    eqn:Hbq; [|vm_compute in Hbq; discriminate Hbq].
  exists bq. split; [reflexivity|].
  exact (proj2 (to_bigquery_json_truncates demo_key (replicate 16 positive))
           bq Hbq).
Defined.

Lemma to_bigquery_json_injective_witness :
  ∃ bq, to_bigquery_json (demo_key, [positive]) = Ok bq ∧
        to_bigquery_json (demo_key, [positive]) = Ok bq ∧
        (length [positive] ≤ 14)%nat ∧
        demo_key = demo_key ∧ [positive] = [positive].
Proof.
  destruct (to_bigquery_json (demo_key, [positive])) as [bq|e] eqn:Hbq;
    [|vm_compute in Hbq; discriminate Hbq].
  exists bq. split; [reflexivity|]. split; [reflexivity|].
  assert (length [positive] ≤ 14)%nat as Hlen by (cbn; lia).
  split; [exact Hlen|].
  exact (to_bigquery_json_injective _ _ _ _ _ Hlen Hlen Hbq Hbq).
Defined.

Lemma label_line_error_fails_run_witness :
  EmptyString ∈ drop 1 (read_lines demo_env_blank "/in/labels.csv") ∧
  is_ok (parse_csv_row EmptyString) = false ∧
  is_ok (build_and_run_pipeline demo_env_blank ["/in/*.tar"] "/in/labels.csv"
           None None None None) = false.
Proof.
  assert (EmptyString ∈ drop 1 (read_lines demo_env_blank "/in/labels.csv"))
    as Hin.
  { vm_compute. do 4 right. left. }
  split; [exact Hin|]. split; [reflexivity|].
  exact (label_line_error_fails_run demo_env_blank ["/in/*.tar"]
           "/in/labels.csv" None None None None EmptyString Hin eq_refl).
Defined.

Lemma completed_run_joins_one_to_one_witness :
  ∃ out, demo_run = Ok out ∧
         length <$> (tfrecords out).*2 = [1%nat; 1%nat].
Proof.
  destruct demo_run as [out|e] eqn:Hrun;
    [|vm_compute in Hrun; discriminate Hrun].
  exists out. split; [reflexivity|].
  destruct (completed_run_joins_one_to_one _ _ _ _ _ _ _ _ Hrun)
    as (rs & js & Hrs & Hjs & _ & ->).
  vm_compute in Hrs. injection Hrs as <-.
  vm_compute in Hjs. injection Hjs as <-. reflexivity.
Defined.

Lemma write_jpg_no_collision_witness :
  write_jpg (demo_key, demo_jpg Byte.x01) "/out/"
    = Ok ("/out/train/p1/s10/view1_frontal.jpg", demo_jpg Byte.x01) ∧
  write_jpg (mk_ids 0 1 10 2 1, demo_jpg Byte.x02) "/out/"
    = Ok ("/out/train/p1/s10/view2_lateral.jpg", demo_jpg Byte.x02) ∧
  (∃ p1, ids_to_path demo_key = Ok p1
         ∧ "/out/train/p1/s10/view1_frontal.jpg" = "/out/" ++ p1) ∧
  ("/out/train/p1/s10/view1_frontal.jpg" = "/out/train/p1/s10/view2_lateral.jpg"
   → demo_key = mk_ids 0 1 10 2 1).
Proof.
  assert (write_jpg (demo_key, demo_jpg Byte.x01) "/out/"
    = Ok ("/out/train/p1/s10/view1_frontal.jpg", demo_jpg Byte.x01)) as H1
    by (vm_compute; reflexivity).
  assert (write_jpg (mk_ids 0 1 10 2 1, demo_jpg Byte.x02) "/out/"
    = Ok ("/out/train/p1/s10/view2_lateral.jpg", demo_jpg Byte.x02)) as H2
    by (vm_compute; reflexivity).
  split; [exact H1|]. split; [exact H2|].
  destruct (write_jpg_no_collision _ _ _ _ _ _ _ _ _ H1 H2)
    as (Hf1 & _ & _ & _ & Hk).
  split; [exact Hf1|exact Hk].
Defined.

Lemma build_and_run_pipeline_trailing_slash_witness :
  (∀ dir, Some "/out/jpg" = Some dir → endswith_slash dir = false) ∧
  (∀ dir, Some "/out/tf" = Some dir → endswith_slash dir = false) ∧
  build_and_run_pipeline demo_env ["/in/*.tar"] "/in/labels.csv"
    (Some "/out/jpg/") (Some "project:dataset.labels") (Some "/out/tf/") None
  = build_and_run_pipeline demo_env ["/in/*.tar"] "/in/labels.csv"
      (Some "/out/jpg") (Some "project:dataset.labels") (Some "/out/tf") None.
Proof.
  assert (∀ dir, Some "/out/jpg" = Some dir → endswith_slash dir = false)
    as Hj by (intros dir Hd; injection Hd as <-; reflexivity).
  assert (∀ dir, Some "/out/tf" = Some dir → endswith_slash dir = false)
    as Ht by (intros dir Hd; injection Hd as <-; reflexivity).
  split; [exact Hj|]. split; [exact Ht|].
  exact (build_and_run_pipeline_trailing_slash demo_env ["/in/*.tar"]
           "/in/labels.csv" (Some "/out/jpg") (Some "project:dataset.labels")
           (Some "/out/tf") None Hj Ht).
Defined.

(** A directory that already ends in a slash is used as it is: with one more
    slash the files are written elsewhere. *)
Example trailing_slash_doubled :
  build_and_run_pipeline demo_env ["/in/*.tar"] "/in/labels.csv"
    (Some "/out/jpg//") None None None
  ≠ build_and_run_pipeline demo_env ["/in/*.tar"] "/in/labels.csv"
      (Some "/out/jpg/") None None None.
Proof. vm_compute. discriminate. Qed.

(** A run without TFRecords on image records and label rows that share no
    key completes. *)
Example run_without_tfrecords_unmatched :
  is_ok (build_and_run_pipeline
           (mk_env (glob demo_env)
              (λ _, [demo_header;
                     "valid/p9/s9/view9_frontal.jpg,frontal,,,,,,,,,,,,,,"])
              (read_tar demo_env) (resize_image demo_env))
           ["/in/*.tar"] "/in/labels.csv" (Some "/out/jpg")
           (Some "project:dataset.labels") None None) = true.
Proof. vm_compute. reflexivity. Qed.
